(** * Schema inference for namedtuple batches: [unify_datatype] and [infer_schema_nt]

    A shallow embedding of the two functions of [Solutions.ipynb] and the
    properties of the column-type heuristic and of the validation and
    assembly flow around it.

    Python values are a tagged variant; exceptions are an explicit error
    result; the insertion-ordered [dict] of column types is an association
    list; strings are [string]s of characters. *)

From Stdlib Require Import ZArith List String Ascii Bool Lia.
From Stdlib Require Import QArith_base PrimFloat DecimalString.
From Stdlib Require Import Reals Lra Permutation.
Import ListNotations.

Local Open Scope string_scope.
Local Open Scope Z_scope.

(** ** Exceptions and results *)

Inductive exn : Type :=
| ValueError (msg : string)
| IndexError (msg : string)
| TypeError (msg : string)
| AttributeError (msg : string).

Inductive result (A : Type) : Type :=
| Ok (a : A)
| Raise (e : exn).

Arguments Ok {A} a.
Arguments Raise {A} e.

Definition bind {A B : Type} (m : result A) (k : A -> result B) : result B :=
  match m with
  | Ok a => k a
  | Raise e => Raise e
  end.

Notation "'do' x <- m ; k" := (bind m (fun x => k))
  (at level 10, x name, m at level 100, k at level 200).

(** [mapM f l] runs [f] on the elements of [l] from left to right and stops
    at the first exception, as a list comprehension does. *)
Fixpoint mapM {A B : Type} (f : A -> result B) (l : list A) : result (list B) :=
  match l with
  | [] => Ok []
  | a :: l' => do b <- f a; do bs <- mapM f l'; Ok (b :: bs)
  end.

(** ** Python values *)

(** [decimal.Decimal]: sign, coefficient digits and exponent, the exponent
    being an integer or one of the markers of the special values. *)
Inductive dec_exp : Type :=
| Finite (e : Z)
| Infinity
| QuietNaN
| SignalingNaN.

Record Decimal : Type := mkDecimal {
  dec_sign : bool;
  dec_int : string;
  dec_exp_of : dec_exp
}.

Inductive value : Type :=
| VFloat (f : float)
| VInt (n : Z)
| VBool (b : bool)
| VDecimal (d : Decimal)
| VStr (s : string)
| VFraction (q : Q)
| VNone
| VOther (type_name : string).

(** [isinstance(v, float)] *)
Definition is_float (v : value) : bool :=
  match v with VFloat _ => true | _ => false end.

(** [isinstance(v, int)]: [bool] is a subclass of [int]. *)
Definition is_int (v : value) : bool :=
  match v with VInt _ | VBool _ => true | _ => false end.

(** [isinstance(v, Decimal)] *)
Definition is_Decimal (v : value) : bool :=
  match v with VDecimal _ => true | _ => false end.

(** [isinstance(v, Fraction)] *)
Definition is_Fraction (v : value) : bool :=
  match v with VFraction _ => true | _ => false end.

(** ** Strings *)

Definition nl : string := String (ascii_of_nat 10) EmptyString.

(** [str(n)] for an integer. *)
Definition str_of_int (n : Z) : string := NilZero.string_of_int (Z.to_int n).

(** [s.find(c)] for a one-character needle: the first index, or -1. *)
Fixpoint find (c : ascii) (s : string) : Z :=
  match s with
  | EmptyString => -1
  | String a s' =>
      if Ascii.eqb a c then 0
      else let r := find c s' in if r <? 0 then -1 else 1 + r
  end.

(** [s[::-1]] *)
Fixpoint rev_string (s : string) : string :=
  match s with
  | EmptyString => EmptyString
  | String a s' => rev_string s' ++ String a EmptyString
  end.

(** [s.rstrip(c)] for a one-character set. *)
Fixpoint rstrip (c : ascii) (s : string) : string :=
  match s with
  | EmptyString => EmptyString
  | String a s' =>
      match rstrip c s' with
      | EmptyString => if Ascii.eqb a c then EmptyString else String a EmptyString
      | r => String a r
      end
  end.

(** ** Integers *)

(** [n.bit_length()]: the number of bits of [abs(n)], 0 for 0. *)
Definition bit_length (n : Z) : Z :=
  if n =? 0 then 0 else Z.log2 (Z.abs n) + 1.

(** The integer held by an [int] instance; [True] is 1 and [False] is 0. *)
Definition as_int (v : value) : option Z :=
  match v with
  | VInt n => Some n
  | VBool b => Some (if b then 1 else 0)
  | _ => None
  end.

Definition as_Decimal (v : value) : option Decimal :=
  match v with VDecimal d => Some d | _ => None end.

(** [all(isinstance(v, T) for v in vals)] together with the values seen
    at type [T]: [Some] exactly when every element is an instance. *)
Fixpoint all_as {A : Type} (f : value -> option A) (vals : list value)
  : option (list A) :=
  match vals with
  | [] => Some []
  | v :: vals' =>
      match f v with
      | Some a =>
          match all_as f vals' with
          | Some l => Some (a :: l)
          | None => None
          end
      | None => None
      end
  end.

(** [max(xs)] over integers. *)
Definition py_max (xs : list Z) : result Z :=
  match xs with
  | [] => Raise (ValueError "max() arg is an empty sequence")
  | x :: xs' => Ok (fold_left Z.max xs' x)
  end.

(** [floor_log10 n] is the integer part of the base-10 logarithm of
    [n >= 1]: the number of times [n] can be divided by 10 before it
    drops below 10. *)
Fixpoint floor_log10_aux (fuel : nat) (n : Z) : Z :=
  match fuel with
  | O => 0
  | S fuel' => if n <? 10 then 0 else 1 + floor_log10_aux fuel' (n / 10)
  end.

Definition floor_log10 (n : Z) : Z :=
  floor_log10_aux (Z.to_nat (bit_length n)) n.

(** [int(1 + log10(n))].  [math.log10] returns a double and [int] truncates
    toward zero; the logarithm is taken here over the exact reals, where
    the truncation of [1 + log10 n] is [1 + floor (log10 n)].  The double
    truncates to the same integer as long as its error is smaller than the
    distance of [log10 n] to the integers around it; for [n = 2^b] this
    holds with a wide margin up to 1023 bits ([pow2_margin],
    [log10_margin]), and fails for some far larger sizes (at 146964308
    bits the double gives one digit more), which no statement below
    reaches. *)
Definition int_1_plus_log10 (n : Z) : Z := 1 + floor_log10 n.

(** ** Decimals *)

(** ['0' * k], empty when [k <= 0]. *)
Definition zeros (k : Z) : string :=
  string_of_list_ascii (repeat "0"%char (Z.to_nat k)).

(** ["%+d" % k] *)
Definition fmt_plus_d (k : Z) : string :=
  if k <? 0 then "-" ++ str_of_int (Z.abs k) else "+" ++ str_of_int k.

(** [str(d)] for a [Decimal], the scientific-string conversion of the
    [decimal] module with the default context (capital [E]). *)
Definition decimal_str (d : Decimal) : string :=
  let sign := if dec_sign d then "-" else "" in
  match dec_exp_of d with
  | Infinity => sign ++ "Infinity"
  | QuietNaN => sign ++ "NaN" ++ dec_int d
  | SignalingNaN => sign ++ "sNaN" ++ dec_int d
  | Finite e =>
      let len := Z.of_nat (String.length (dec_int d)) in
      let leftdigits := e + len in
      let dotplace :=
        if (e <=? 0) && (-6 <? leftdigits) then leftdigits else 1 in
      let intpart :=
        if dotplace <=? 0 then "0"
        else if len <=? dotplace then dec_int d ++ zeros (dotplace - len)
        else substring 0 (Z.to_nat dotplace) (dec_int d) in
      let fracpart :=
        if dotplace <=? 0 then "." ++ zeros (- dotplace) ++ dec_int d
        else if len <=? dotplace then ""
        else "." ++ substring (Z.to_nat dotplace)
                              (Z.to_nat (len - dotplace)) (dec_int d) in
      let exp :=
        if leftdigits =? dotplace then ""
        else "E" ++ fmt_plus_d (leftdigits - dotplace) in
      sign ++ intpart ++ fracpart ++ exp
  end.

(** ** The type unifier *)

(** [all(isinstance(v, str) and v[0] == '$' for v in vals)]: the scan stops
    at the first element that fails the test, and indexing an empty string
    raises. *)
Fixpoint all_currency (vals : list value) : result bool :=
  match vals with
  | [] => Ok true
  | VStr s :: vals' =>
      match s with
      | EmptyString => Raise (IndexError "string index out of range")
      | String c _ => if Ascii.eqb c "$" then all_currency vals' else Ok false
      end
  | _ :: _ => Ok false
  end.

(** One pass of the loop over a decimal column: the state is
    [(to_right, to_left)]. *)
Definition decimal_step (st : Z * Z) (d : Decimal) : Z * Z :=
  let v_str := decimal_str d in
  (Z.max (fst st) (find "." (rev_string v_str)),
   Z.max (snd st) (find "." v_str)).

Definition decimal_scan (ds : list Decimal) : Z * Z :=
  fold_left decimal_step ds (0, 1).

Definition unify_datatype (vals : list value) : result string :=
  (* Floating point? *)
  if forallb is_float vals then Ok "DOUBLE PRECISION"
  else
  (* Integer? *)
  match all_as as_int vals with
  | Some ns =>
      do m <- py_max (map Z.abs ns);
      let size := bit_length m in
      if size <=? 16 then Ok "SMALLINT"
      else if size <=? 32 then Ok "INTEGER"
      else if size <=? 64 then Ok "BIGINT"
      else Ok ("DECIMAL(" ++ str_of_int (int_1_plus_log10 (2 ^ size)) ++ ")")
  | None =>
  (* Decimal? *)
  match all_as as_Decimal vals with
  | Some ds =>
      let (to_right, to_left) := decimal_scan ds in
      let to_right := to_right + 1 in
      Ok ("DECIMAL(" ++ str_of_int (to_left + to_right) ++ ", "
                     ++ str_of_int to_right ++ ")")
  | None =>
  (* Currency string? *)
  do cur <- all_currency vals;
  if cur then Ok "DECIMAL(10, 2)"
  else
  (* Fraction? *)
  if forallb is_Fraction vals then Ok "DOUBLE PRECISION"
  else Ok "TEXT"
  end
  end.

(** ** Records of a batch *)

(** A class made by [namedtuple]: its identity, its [__name__] and its
    [_fields]. Two classes may carry the same name. *)
Record ntclass : Type := mkClass {
  nt_id : nat;
  nt_name : string;
  nt_fields : list string
}.

(** An element of the dataset: an instance of a namedtuple class, a plain
    [tuple], an object that is not a tuple (which may still have a
    [_fields] attribute), or an instance of a hand-written subclass of
    [tuple] whose [_fields] attribute cannot be iterated (it holds an
    [int], say; [fields_type] is the name of its type).  A [_fields] that
    can be iterated is taken to hold field names, as those of the
    namedtuple classes do. *)
Inductive pyobj : Type :=
| NamedTuple (cls : ntclass) (items : list value)
| PlainTuple (items : list value)
| Object (cls_name : string) (fields : option (list string))
| OddTuple (cls_name : string) (fields_type : string) (items : list value).

(** [isinstance(t, tuple)] *)
Definition is_tuple (t : pyobj) : bool :=
  match t with
  | NamedTuple _ _ | PlainTuple _ | OddTuple _ _ _ => true
  | Object _ _ => false
  end.

(** [hasattr(t, '_fields')] *)
Definition has_fields (t : pyobj) : bool :=
  match t with
  | NamedTuple _ _ | OddTuple _ _ _ => true
  | PlainTuple _ => false
  | Object _ fs => match fs with Some _ => true | None => false end
  end.

(** [o.__class__.__name__] *)
Definition class_name (o : pyobj) : string :=
  match o with
  | NamedTuple c _ => nt_name c
  | PlainTuple _ => "tuple"
  | Object n _ | OddTuple n _ _ => n
  end.

(** [o._fields], as [enumerate(fields)] takes it up: the field names, or
    the [TypeError] of iterating an attribute that cannot be iterated. *)
Definition get_fields (o : pyobj) : result (list string) :=
  match o with
  | NamedTuple c _ => Ok (nt_fields c)
  | PlainTuple _ =>
      Raise (AttributeError "'tuple' object has no attribute '_fields'")
  | Object _ (Some fs) => Ok fs
  | Object _ None => Raise (AttributeError "object has no attribute '_fields'")
  | OddTuple _ t _ => Raise (TypeError ("'" ++ t ++ "' object is not iterable"))
  end.

(** [row[n]] *)
Definition getitem (row : pyobj) (n : nat) : result value :=
  match row with
  | NamedTuple _ items | PlainTuple items | OddTuple _ _ items =>
      match nth_error items n with
      | Some v => Ok v
      | None => Raise (IndexError "tuple index out of range")
      end
  | Object _ _ => Raise (TypeError "object is not subscriptable")
  end.

(** [dataset[0]] *)
Definition first_row (dataset : list pyobj) : result pyobj :=
  match dataset with
  | o :: _ => Ok o
  | [] => Raise (IndexError "list index out of range")
  end.

(** ** The insertion-ordered dict of column types *)

Definition dict : Type := list (string * string).

(** [types[col] = coldef]: a key already present keeps its place and takes
    the new value; a new key goes to the end. *)
Fixpoint dict_set (types : dict) (col coldef : string) : dict :=
  match types with
  | [] => [(col, coldef)]
  | (k, v) :: types' =>
      if String.eqb k col then (k, coldef) :: types'
      else (k, v) :: dict_set types' col coldef
  end.

(** ** The schema inferrer *)

(** [not coldef] for a string. *)
Definition falsy (s : string) : bool :=
  match s with EmptyString => true | _ => false end.

(** The loop over [enumerate(fields)], from position [n] on. *)
Fixpoint unify_columns (U : list value -> result string)
    (dataset : list pyobj) (n : nat) (fields : list string) (types : dict)
  : result dict :=
  match fields with
  | [] => Ok types
  | col :: fields' =>
      do colvals <- mapM (fun row => getitem row n) dataset;
      do coldef <- U colvals;
      if falsy coldef then
        Raise (ValueError
                 ("Could not find unified datatype for column " ++ col))
      else unify_columns U dataset (S n) fields' (dict_set types col coldef)
  end.

(** [sql[-1] = f(sql[-1])] *)
Fixpoint update_last (f : string -> string) (sql : list string)
  : result (list string) :=
  match sql with
  | [] => Raise (IndexError "list index out of range")
  | [x] => Ok [f x]
  | x :: sql' => do r <- update_last f sql'; Ok (x :: r)
  end.

(** Format the DDL SQL command. *)
Definition format_ddl (tablename : string) (types : dict) : result string :=
  let sql := ["CREATE TABLE " ++ tablename ++ " ("] in
  let sql :=
    fold_left
      (fun sql ct =>
         List.app sql ["    " ++ fst ct ++ " " ++ snd ct ++ ","])
      types sql in
  do sql <- update_last (rstrip ",") sql;
  let sql := List.app sql [");"] in
  Ok (String.concat nl sql).

(** [infer_schema_nt] over an arbitrary unifier [U]. *)
Definition infer_schema_with (U : list value -> result string)
    (dataset : list pyobj) : result string :=
  (* Require at least two rows to infer datatype *)
  if (List.length dataset <? 2)%nat then
    Raise (ValueError "At least two rows are required for inference")
  (* Check if they are all namedtuples (probably) *)
  else if negb (forallb (fun t => is_tuple t && has_fields t) dataset) then
    Raise (ValueError
             "The dataset does not appear to be exclusively namedtuples")
  (* Check that namedtuples have same type *)
  else if negb (List.length (nodup string_dec (map class_name dataset)) =? 1)%nat
  then Raise (ValueError "The dataset has namedtuples of varying types")
  else
    do row0 <- first_row dataset;
    let tablename := class_name row0 in
    do fields <- get_fields row0;
    do types <- unify_columns U dataset 0 fields [];
    format_ddl tablename types.

Definition infer_schema_nt (dataset : list pyobj) : result string :=
  infer_schema_with unify_datatype dataset.

(** * Quantities of the specification *)

(** ** Integer columns *)

(** The integer of an [int] instance (0 for any other value). *)
Definition int_of (v : value) : Z :=
  match as_int v with Some n => n | None => 0 end.

(** The largest [abs(v)] over the column (0 for the empty column). *)
Definition max_abs_value (vals : list value) : Z :=
  fold_right (fun v acc => Z.max (Z.abs (int_of v)) acc) 0 vals.

(** [ceil(log10(n))] as the specification words it: the least [k] with
    [n <= 10^k]. *)
Definition ceil_log10 (n : Z) : Z :=
  if n <=? 1 then 0 else 1 + floor_log10 (n - 1).

(** [margins_from steps (2^b) (10^(p-1)) (10^p)] walks [steps] bit lengths
    from [b] on and checks that each power of two keeps a relative
    distance of a thousandth from the powers of ten next to it. *)
Fixpoint margins_from (steps : nat) (pow2 lo hi : Z) : bool :=
  match steps with
  | O => true
  | S k =>
      (1001 * lo <=? 1000 * pow2) && (1001 * pow2 <=? 1000 * hi)
      && if 2 * pow2 <? hi then margins_from k (2 * pow2) lo hi
         else margins_from k (2 * pow2) hi (10 * hi)
  end.

(** ** Type labels *)

(** The type labels the unifier can return. *)
Inductive type_label : string -> Prop :=
| L_double : type_label "DOUBLE PRECISION"
| L_smallint : type_label "SMALLINT"
| L_integer : type_label "INTEGER"
| L_bigint : type_label "BIGINT"
| L_decimal1 (p : Z) : type_label ("DECIMAL(" ++ str_of_int p ++ ")")
| L_decimal2 (t s : Z) :
    type_label ("DECIMAL(" ++ str_of_int t ++ ", " ++ str_of_int s ++ ")")
| L_money : type_label "DECIMAL(10, 2)"
| L_text : type_label "TEXT".

(** A label loses exactly the comma put after it. *)
Definition comma_free_end (t : string) : Prop :=
  t <> "" /\ rstrip "," (t ++ ",") = t.

(** ** The create-table text as the specification words it *)

(** A column line without its comma. *)
Definition column_line (ct : string * string) : string :=
  "    " ++ fst ct ++ " " ++ snd ct.

(** One line per column, each but the last followed by a comma. *)
Fixpoint column_lines (cols : list (string * string)) : list string :=
  match cols with
  | [] => []
  | ct :: cols' =>
      match cols' with
      | [] => [column_line ct]
      | _ :: _ => (column_line ct ++ ",") :: column_lines cols'
      end
  end.

(** The opening line, the column lines and the closing line. *)
Definition create_table_text (name : string) (cols : list (string * string))
  : string :=
  String.concat nl
    (List.app (("CREATE TABLE " ++ name ++ " (") :: column_lines cols) [");"]).

(** ** Batches and their columns *)

(** The items of a tuple. *)
Definition row_items (o : pyobj) : list value :=
  match o with
  | NamedTuple _ items | PlainTuple items | OddTuple _ _ items => items
  | Object _ _ => []
  end.

(** The values of field position [n], one per record, in record order. *)
Definition column (dataset : list pyobj) (n : nat) : list value :=
  map (fun row => nth n (row_items row) VNone) dataset.

(** Every record has an item at position [n]. *)
Definition wide_enough (dataset : list pyobj) (n : nat) : bool :=
  forallb (fun row => (n <? List.length (row_items row))%nat) dataset.

(** The columns of a batch, by field position. *)
Definition columns (dataset : list pyobj) (width : nat) : list (list value) :=
  map (column dataset) (seq 0 width).

(** The three checks at the head of [infer_schema_nt]. *)
Definition validated (dataset : list pyobj) : bool :=
  (2 <=? List.length dataset)%nat
  && forallb (fun t => is_tuple t && has_fields t) dataset
  && (List.length (nodup string_dec (map class_name dataset)) =? 1)%nat.

(** [types.keys()] *)
Definition keys (types : dict) : list string := map fst types.

(** A batch as the data model has it: at least two records, all instances
    of one namedtuple class, whose field names are distinct and whose
    instances have one item per field. *)
Definition valid_batch (cls : ntclass) (dataset : list pyobj) : Prop :=
  (2 <= List.length dataset)%nat /\
  NoDup (nt_fields cls) /\
  Forall (fun row => exists items,
              row = NamedTuple cls items /\
              List.length items = List.length (nt_fields cls)) dataset.

(** ** Digit counts of a decimal string *)

(** The characters ['0'] to ['9']. *)
Definition is_digit (c : ascii) : bool :=
  ((48 <=? nat_of_ascii c) && (nat_of_ascii c <=? 57))%nat.

Fixpoint count_digits (s : string) : Z :=
  match s with
  | EmptyString => 0
  | String a s' => (if is_digit a then 1 else 0) + count_digits s'
  end.

(** The part of [s] before the first [c]; all of [s] without a [c]. *)
Fixpoint before (c : ascii) (s : string) : string :=
  match s with
  | EmptyString => EmptyString
  | String a s' => if Ascii.eqb a c then EmptyString else String a (before c s')
  end.

(** The part of [s] after the first [c]; empty without a [c]. *)
Fixpoint after (c : ascii) (s : string) : string :=
  match s with
  | EmptyString => EmptyString
  | String a s' => if Ascii.eqb a c then s' else after c s'
  end.

(** The digits of the string form, without an exponent part. *)
Definition mantissa (s : string) : string := before "E" s.

(** Digits left of the decimal point. *)
Definition digits_left (s : string) : Z :=
  count_digits (before "." (mantissa s)).

(** Digits right of the decimal point. *)
Definition digits_right (s : string) : Z :=
  count_digits (after "." (mantissa s)).

(** The largest count [f] over the string forms of a column. *)
Definition max_digits (f : string -> Z) (ds : list Decimal) : Z :=
  fold_right Z.max 0 (map (fun d => f (decimal_str d)) ds).

(** The type the specification gives a decimal column: fractional digits
    one more than the largest count right of the point, total digits the
    largest count left of the point plus the fractional digits. *)
Definition spec_decimal_type (ds : list Decimal) : string :=
  let s := max_digits digits_right ds + 1 in
  let t := max_digits digits_left ds + s in
  "DECIMAL(" ++ str_of_int t ++ ", " ++ str_of_int s ++ ")".

(** [c in s] *)
Fixpoint contains (c : ascii) (s : string) : bool :=
  match s with
  | EmptyString => false
  | String a s' => Ascii.eqb a c || contains c s'
  end.

Fixpoint all_digits (s : string) : bool :=
  match s with
  | EmptyString => true
  | String a s' => is_digit a && all_digits s'
  end.

(** Digits, a point, digits: the plain form of a non-negative decimal with
    a fractional part. *)
Definition point_form (s : string) : bool :=
  contains "." s
  && negb (String.eqb (before "." s) "")
  && all_digits (before "." s)
  && all_digits (after "." s).

(** ** Sample data *)

(** A non-negative finite [Decimal] from its digits and exponent:
    [Dec "115573" (-5)] is [Decimal('1.15573')]. *)
Definition Dec (i : string) (e : Z) : value :=
  VDecimal (mkDecimal false i (Finite e)).

Definition Numbers1 : ntclass :=
  mkClass 1 "Numbers1" ["a"; "b"; "c"; "d"; "e"].

(** [data1] of the notebook; the floats 1.23, 4.56 and 7.89 are written as
    the doubles nearest to them. *)
Definition data1 : list pyobj :=
  [ NamedTuple Numbers1
      [VFloat 0x1.3ae147ae147aep+0; Dec "115573" (-5); VInt 1000000000000;
       VInt 2; VFraction (22 # 7)];
    NamedTuple Numbers1
      [VFloat 0x1.23d70a3d70a3dp+2; Dec "1155727349790921717935726" (-24);
       VInt (-22); VInt 5; VFraction (1 # 3)];
    NamedTuple Numbers1
      [VFloat 0x1.f8f5c28f5c28fp+2; Dec "10" (-1); VInt 56; VInt 9;
       VFraction (5 # 1)] ].

Definition Point : ntclass := mkClass 2 "Point" ["x"; "y"].

(** Two distinct classes with one name. *)
Definition PointXY : ntclass := mkClass 3 "Point" ["x"; "y"].

Definition PointXYZ : ntclass := mkClass 4 "Point" ["x"; "y"; "z"].

Definition Note : ntclass := mkClass 5 "Note" ["id"; "text"].

(** ** The rules of the unifier, one test per rule *)

(** [isinstance(v, str) and v[0] == '$'] on a string that has a first
    character. *)
Definition is_currency (v : value) : bool :=
  match v with
  | VStr (String c _) => Ascii.eqb c "$"
  | _ => false
  end.

(** One of the five typed rules covers the whole column. *)
Definition some_rule_matches (vals : list value) : bool :=
  forallb is_float vals || forallb is_int vals || forallb is_Decimal vals
  || forallb is_currency vals || forallb is_Fraction vals.

(** The decimals of a column, in column order. *)
Definition decimals (vals : list value) : list Decimal :=
  flat_map (fun v => match as_Decimal v with Some d => [d] | None => [] end)
           vals.

(** ** The test loop of the notebook *)

(** ['-' * 50] *)
Definition dashes : string := string_of_list_ascii (repeat "-"%char 50).

(** One pass of the loop over the sample names: what it prints, and the
    exception that escapes it, if any.  The name is printed first; the
    [try] prints the statement, the [except ValueError] prints the message
    of the error, and the separator line follows; any other exception
    leaves the loop after the name. *)
Definition loop_pass (name : string) (data : list pyobj)
  : string * option exn :=
  let out := name ++ nl in
  match infer_schema_nt data with
  | Ok sql => (out ++ sql ++ nl ++ dashes ++ nl, None)
  | Raise (ValueError msg) => (out ++ msg ++ nl ++ dashes ++ nl, None)
  | Raise e => (out, Some e)
  end.

(** * Properties *)

(** ** Facts about the result monad and the downcasts *)

Lemma all_as_int_of_forallb (vals : list value) :
  forallb is_int vals = true -> exists ns, all_as as_int vals = Some ns.
Proof.
  induction vals as [|v vals IH]; simpl; intros H.
  - now exists [].
  - apply andb_true_iff in H as [Hv Hr].
    destruct (IH Hr) as [ns ->].
    destruct v; simpl in *; try discriminate; eauto.
Qed.

Lemma all_as_int_forallb (vals : list value) (ns : list Z) :
  all_as as_int vals = Some ns -> forallb is_int vals = true.
Proof.
  revert ns; induction vals as [|v vals IH]; simpl; intros ns H; auto.
  destruct (as_int v) eqn:Ev; try discriminate.
  destruct (all_as as_int vals) eqn:Er; try discriminate.
  rewrite (IH _ eq_refl), andb_true_r.
  destruct v; simpl in *; congruence.
Qed.

Lemma forallb_float_int_disjoint (vals : list value) :
  vals <> [] -> forallb is_int vals = true -> forallb is_float vals = false.
Proof.
  destruct vals as [|v vals]; [congruence|]. simpl; intros _ H.
  apply andb_true_iff in H as [Hv _].
  destruct v; simpl in *; congruence.
Qed.

(** ** The maximum absolute value of an integer column *)

Lemma fold_left_max_acc (xs : list Z) (a : Z) :
  0 <= a -> fold_left Z.max xs a = Z.max a (fold_right Z.max 0 xs).
Proof.
  revert a; induction xs as [|x xs IH]; simpl; intros a Ha; [lia|].
  rewrite IH; lia.
Qed.

Lemma max_abs_value_nonneg (vals : list value) : 0 <= max_abs_value vals.
Proof. induction vals; simpl; lia. Qed.

Lemma max_abs_value_upper (vals : list value) (v : value) :
  In v vals -> Z.abs (int_of v) <= max_abs_value vals.
Proof.
  induction vals as [|w vals IH]; simpl; [tauto|].
  intros [->|H]; [|specialize (IH H)]; lia.
Qed.

Lemma max_abs_value_attained (vals : list value) :
  vals <> [] -> exists v, In v vals /\ max_abs_value vals = Z.abs (int_of v).
Proof.
  induction vals as [|w vals IH]; [congruence|]. intros _.
  destruct vals as [|w' vals'].
  - exists w. split; [now left|]. simpl. lia.
  - destruct IH as (v & Hin & Hv); [congruence|].
    change (max_abs_value (w :: w' :: vals'))
      with (Z.max (Z.abs (int_of w)) (max_abs_value (w' :: vals'))).
    destruct (Z_le_gt_dec (Z.abs (int_of w)) (max_abs_value (w' :: vals'))).
    + exists v. split; [now right|]. lia.
    + exists w. split; [now left|]. lia.
Qed.

Lemma py_max_abs (vals : list value) (ns : list Z) :
  vals <> [] -> all_as as_int vals = Some ns ->
  py_max (map Z.abs ns) = Ok (max_abs_value vals).
Proof.
  intros Hne H.
  assert (Hfr : fold_right Z.max 0 (map Z.abs ns) = max_abs_value vals).
  { clear Hne. revert ns H.
    induction vals as [|v vals IH]; simpl; intros ns H.
    - now inversion H.
    - unfold int_of. destruct (as_int v) eqn:Ev; try discriminate.
      destruct (all_as as_int vals) eqn:Er; try discriminate.
      inversion H; subst; simpl. now rewrite (IH _ eq_refl). }
  destruct vals as [|v vals]; [congruence|]. simpl in H.
  destruct (as_int v) eqn:Ev; try discriminate.
  destruct (all_as as_int vals) eqn:Er; try discriminate.
  inversion H; subst; simpl in *. f_equal.
  rewrite fold_left_max_acc; lia.
Qed.

(** [bit_length] is the least number of bits that hold the value. *)
Lemma bit_length_spec (n : Z) :
  0 < n -> 2 ^ (bit_length n - 1) <= n < 2 ^ bit_length n.
Proof.
  intros Hn. unfold bit_length.
  destruct (Z.eqb_spec n 0); [lia|].
  rewrite Z.abs_eq by lia.
  replace (Z.log2 n + 1 - 1) with (Z.log2 n) by lia.
  apply (Z.log2_spec n Hn).
Qed.

Lemma bit_length_nonneg (n : Z) : 0 <= bit_length n.
Proof.
  unfold bit_length. destruct (n =? 0); [lia|].
  pose proof (Z.log2_nonneg (Z.abs n)). lia.
Qed.

(** The unifier on a non-empty column of integers, by the size of its
    largest absolute value. *)
Lemma unify_datatype_int (vals : list value) :
  vals <> [] -> forallb is_int vals = true ->
  unify_datatype vals =
    let size := bit_length (max_abs_value vals) in
    if size <=? 16 then Ok "SMALLINT"
    else if size <=? 32 then Ok "INTEGER"
    else if size <=? 64 then Ok "BIGINT"
    else Ok ("DECIMAL(" ++ str_of_int (int_1_plus_log10 (2 ^ size)) ++ ")").
Proof.
  intros Hne Hint. unfold unify_datatype.
  rewrite (forallb_float_int_disjoint vals Hne Hint).
  destruct (all_as_int_of_forallb vals Hint) as [ns Hns].
  rewrite Hns, (py_max_abs vals ns Hne Hns). reflexivity.
Qed.

(** ** Decimal digits of an integer *)

Lemma floor_log10_aux_spec (fuel : nat) (n : Z) :
  1 <= n < 2 ^ Z.of_nat fuel ->
  0 <= floor_log10_aux fuel n /\
  10 ^ floor_log10_aux fuel n <= n < 10 ^ (floor_log10_aux fuel n + 1).
Proof.
  revert n; induction fuel as [|fuel IH]; intros n Hn.
  - simpl in Hn. lia.
  - cbn [floor_log10_aux]. destruct (Z.ltb_spec n 10) as [Hlt|Hge].
    + simpl. lia.
    + rewrite Nat2Z.inj_succ, Z.pow_succ_r in Hn by lia.
      pose proof (Z.div_mod n 10 ltac:(lia)) as Hdm.
      pose proof (Z.mod_pos_bound n 10 ltac:(lia)) as Hmod.
      destruct (IH (n / 10)) as (H0 & Hlo & Hhi); [lia|].
      split; [lia|].
      replace (1 + floor_log10_aux fuel (n / 10) + 1)
        with (Z.succ (floor_log10_aux fuel (n / 10) + 1)) by lia.
      replace (1 + floor_log10_aux fuel (n / 10))
        with (Z.succ (floor_log10_aux fuel (n / 10))) by lia.
      rewrite !Z.pow_succ_r by lia. lia.
Qed.

(** [floor_log10 n] is the integer [k] with [10^k <= n < 10^(k+1)]. *)
Lemma floor_log10_spec (n : Z) :
  1 <= n ->
  0 <= floor_log10 n /\ 10 ^ floor_log10 n <= n < 10 ^ (floor_log10 n + 1).
Proof.
  intros Hn. unfold floor_log10. apply floor_log10_aux_spec.
  rewrite Z2Nat.id by apply bit_length_nonneg.
  pose proof (bit_length_spec n ltac:(lia)). lia.
Qed.

Lemma ln_IZR_pow10 (k : Z) :
  0 <= k -> ln (IZR (10 ^ k)) = (IZR k * ln 10)%R.
Proof.
  intros Hk. rewrite <- (Z2Nat.id k Hk) at 1.
  rewrite <- pow_IZR, ln_pow by lra.
  now rewrite INR_IZR_INZ, Z2Nat.id.
Qed.

Lemma log10_between (n k : Z) :
  0 <= k -> 10 ^ k <= n < 10 ^ (k + 1) ->
  (IZR k <= ln (IZR n) / ln 10 < IZR k + 1)%R.
Proof.
  intros Hk [Hlo Hhi].
  assert (H10 : (0 < ln 10)%R).
  { rewrite <- ln_1. apply ln_increasing; lra. }
  assert (Hp : 0 < 10 ^ k) by (apply Z.pow_pos_nonneg; lia).
  assert (Hlo' : (ln (IZR (10 ^ k)) <= ln (IZR n))%R).
  { destruct (Z.eq_dec (10 ^ k) n) as [->|Hne]; [lra|].
    left. apply ln_increasing; [now apply IZR_lt|apply IZR_lt; lia]. }
  assert (Hhi' : (ln (IZR n) < ln (IZR (10 ^ (k + 1))))%R).
  { apply ln_increasing; [apply IZR_lt; lia|now apply IZR_lt]. }
  rewrite ln_IZR_pow10 in Hlo', Hhi' by lia.
  rewrite plus_IZR in Hhi'.
  split.
  - apply Rmult_le_reg_r with (ln 10); [exact H10|].
    unfold Rdiv. rewrite Rmult_assoc, Rinv_l by lra. lra.
  - apply Rmult_lt_reg_r with (ln 10); [exact H10|].
    unfold Rdiv. rewrite Rmult_assoc, Rinv_l by lra. lra.
Qed.

(** Over the reals, the truncation of [1 + log10 n] is [int_1_plus_log10 n]:
    the embedding of [int(1 + log10(n))] is the exact value of the
    expression. *)
Lemma int_1_plus_log10_exact (n : Z) :
  1 <= n -> Int_part (1 + ln (IZR n) / ln 10) = int_1_plus_log10 n.
Proof.
  intros Hn. symmetry. apply Int_part_spec. unfold int_1_plus_log10.
  destruct (floor_log10_spec n Hn) as (H0 & Hbounds).
  pose proof (log10_between n (floor_log10 n) H0 Hbounds) as [Hlo Hhi].
  rewrite plus_IZR. split; lra.
Qed.

Lemma ceil_log10_spec (n : Z) :
  2 <= n ->
  1 <= ceil_log10 n /\ 10 ^ (ceil_log10 n - 1) < n <= 10 ^ ceil_log10 n.
Proof.
  intros Hn. unfold ceil_log10. destruct (Z.leb_spec n 1); [lia|].
  destruct (floor_log10_spec (n - 1)) as (H0 & Hlo & Hhi); [lia|].
  replace (1 + floor_log10 (n - 1) - 1) with (floor_log10 (n - 1)) by lia.
  replace (1 + floor_log10 (n - 1)) with (floor_log10 (n - 1) + 1) by lia.
  lia.
Qed.

Lemma pow2_mod5 (b : Z) : 0 <= b -> 1 <= 2 ^ b mod 5 <= 4.
Proof.
  revert b. apply natlike_ind.
  - simpl. rewrite Z.mod_small; lia.
  - intros b Hb IH. rewrite Z.pow_succ_r, <- Z.mul_mod_idemp_r by lia.
    assert (H : 2 ^ b mod 5 = 1 \/ 2 ^ b mod 5 = 2 \/
                2 ^ b mod 5 = 3 \/ 2 ^ b mod 5 = 4) by lia.
    destruct H as [-> | [-> | [-> | ->]]]; cbv; split; congruence.
Qed.

Lemma pow10_mod5 (k : Z) : 1 <= k -> 10 ^ k mod 5 = 0.
Proof.
  intros Hk. replace k with (Z.succ (k - 1)) by lia.
  rewrite Z.pow_succ_r by lia.
  replace (10 * 10 ^ (k - 1)) with (2 * 10 ^ (k - 1) * 5) by lia.
  apply Z.mod_mul. lia.
Qed.

(** A power of two other than 1 is not a power of ten. *)
Lemma pow2_not_pow10 (b k : Z) : 1 <= b -> 0 <= k -> 2 ^ b <> 10 ^ k.
Proof.
  intros Hb Hk Heq.
  destruct (Z.eq_dec k 0) as [->|Hk0].
  - assert (2 ^ 1 <= 2 ^ b) by (apply Z.pow_le_mono_r; lia).
    simpl in Heq. change (2 ^ 1) with 2 in *. lia.
  - pose proof (pow2_mod5 b ltac:(lia)) as H2.
    rewrite Heq, pow10_mod5 in H2; lia.
Qed.

(** On a power of two, the digit count [int(1 + log10(2**b))] is
    [ceil(log10(2**b))], with no extra digit. *)
Lemma int_1_plus_log10_pow2 (b : Z) :
  1 <= b -> int_1_plus_log10 (2 ^ b) = ceil_log10 (2 ^ b).
Proof.
  intros Hb. unfold int_1_plus_log10.
  assert (HN : 2 <= 2 ^ b).
  { change 2 with (2 ^ 1) at 1. apply Z.pow_le_mono_r; lia. }
  destruct (floor_log10_spec (2 ^ b)) as (Hf0 & Hflo & Hfhi); [lia|].
  destruct (ceil_log10_spec (2 ^ b) HN) as (Hc1 & Hclo & Hchi).
  pose proof (pow2_not_pow10 b (floor_log10 (2 ^ b)) Hb Hf0) as Hne.
  destruct (Z.lt_trichotomy (1 + floor_log10 (2 ^ b)) (ceil_log10 (2 ^ b)))
    as [Hlt|[Heq|Hgt]]; [exfalso|exact Heq|exfalso].
  - assert (10 ^ (floor_log10 (2 ^ b) + 1) <= 10 ^ (ceil_log10 (2 ^ b) - 1))
      by (apply Z.pow_le_mono_r; lia).
    lia.
  - assert (10 ^ ceil_log10 (2 ^ b) <= 10 ^ floor_log10 (2 ^ b))
      by (apply Z.pow_le_mono_r; lia).
    lia.
Qed.

(** ** The digit count under rounding *)

Lemma ceil_log10_unique (n q : Z) :
  2 <= n -> 10 ^ (q - 1) < n <= 10 ^ q -> 1 <= q -> ceil_log10 n = q.
Proof.
  intros Hn [Hlo Hhi] Hq.
  destruct (ceil_log10_spec n Hn) as (Hc1 & Hclo & Hchi).
  destruct (Z.lt_trichotomy (ceil_log10 n) q) as [Hlt|[Heq|Hgt]];
    [exfalso|exact Heq|exfalso].
  - assert (10 ^ ceil_log10 n <= 10 ^ (q - 1))
      by (apply Z.pow_le_mono_r; lia).
    lia.
  - assert (10 ^ q <= 10 ^ (ceil_log10 n - 1))
      by (apply Z.pow_le_mono_r; lia).
    lia.
Qed.


Lemma margins_from_sound (steps : nat) :
  forall b p : Z,
    0 <= b -> 1 <= p ->
    margins_from steps (2 ^ b) (10 ^ (p - 1)) (10 ^ p) = true ->
    forall i, b <= i < b + Z.of_nat steps ->
      exists q, 1 <= q /\
        1001 * 10 ^ (q - 1) <= 1000 * 2 ^ i /\
        1001 * 2 ^ i <= 1000 * 10 ^ q.
Proof.
  induction steps as [|k IH]; intros b p Hb Hp Hrun i Hi; [lia|].
  cbn [margins_from] in Hrun.
  apply andb_true_iff in Hrun as [Hm Hrest].
  apply andb_true_iff in Hm as [Hlo Hhi].
  apply Z.leb_le in Hlo, Hhi.
  destruct (Z.eq_dec i b) as [->|Hne]; [exists p; auto|].
  assert (E2 : 2 * 2 ^ b = 2 ^ (b + 1)) by (rewrite Z.pow_add_r; lia).
  assert (E10 : 10 * 10 ^ p = 10 ^ (p + 1)) by (rewrite Z.pow_add_r; lia).
  rewrite E2 in Hrest.
  destruct (2 ^ (b + 1) <? 10 ^ p).
  - apply (IH (b + 1) p); try lia. exact Hrest.
  - apply (IH (b + 1) (p + 1)); try lia.
    rewrite E10 in Hrest. now replace (p + 1 - 1) with p by lia.
Qed.

(** For every bit length from 65 to 1023, the lengths at which [2^b] is a
    finite double, [2^b] keeps that distance from the powers of ten around
    it. *)
Lemma pow2_margin (b : Z) :
  64 < b <= 1023 ->
  let p := ceil_log10 (2 ^ b) in
  1 <= p /\
  1001 * 10 ^ (p - 1) <= 1000 * 2 ^ b /\ 1001 * 2 ^ b <= 1000 * 10 ^ p.
Proof.
  intros Hb p.
  assert (Hrun : margins_from 959 (2 ^ 65) (10 ^ (20 - 1)) (10 ^ 20) = true)
    by (vm_compute; reflexivity).
  destruct (margins_from_sound 959 65 20 ltac:(lia) ltac:(lia) Hrun b)
    as (q & Hq & Hlo & Hhi); [lia|].
  assert (H2 : 2 <= 2 ^ b).
  { change 2 with (2 ^ 1) at 1. apply Z.pow_le_mono_r; lia. }
  assert (Hq1 : 0 < 10 ^ (q - 1)) by (apply Z.pow_pos_nonneg; lia).
  assert (E : p = q).
  { apply ceil_log10_unique; [exact H2|lia|exact Hq]. }
  rewrite E. auto.
Qed.

Lemma ln_10_lt_3 : (ln 10 < 3)%R.
Proof.
  assert (H : (3 / 2 < exp (1 / 2))%R).
  { pose proof (exp_ineq1 (1 / 2) ltac:(lra)). lra. }
  assert (E : exp 3 = (exp (1 / 2) * exp (1 / 2) * (exp (1 / 2) * exp (1 / 2))
                       * (exp (1 / 2) * exp (1 / 2)))%R).
  { rewrite <- !exp_plus. f_equal. lra. }
  set (e := exp (1 / 2)) in *.
  assert (H2 : (9 / 4 < e * e)%R) by nra.
  assert (H4 : (81 / 16 < e * e * (e * e))%R) by nra.
  assert (H6 : (10 < e * e * (e * e) * (e * e))%R) by nra.
  rewrite <- (ln_exp 3). apply ln_increasing; [lra|]. now rewrite E.
Qed.

Lemma ln_le_mono (x y : R) : (0 < x)%R -> (x <= y)%R -> (ln x <= ln y)%R.
Proof.
  intros Hx [Hlt | ->]; [left; now apply ln_increasing|right; reflexivity].
Qed.

Lemma ln_1001_lower : (1 / 1001 <= ln (1001 / 1000))%R.
Proof.
  pose proof (exp_ineq1_le (- (1 / 1001))) as H.
  assert (H1 : (ln (1000 / 1001) <= - (1 / 1001))%R).
  { rewrite <- (ln_exp (- (1 / 1001))). apply ln_le_mono; lra. }
  replace (1001 / 1000)%R with (/ (1000 / 1001))%R by lra.
  rewrite ln_Rinv by lra. lra.
Qed.

(** A number a thousandth away from the powers of ten around it has its
    digit count settled by any evaluation of [1 + log10 n] that is off by
    no more than 1/4000: the evaluation truncates to the count. *)
Lemma log10_margin (n p : Z) :
  1 <= p ->
  1001 * 10 ^ (p - 1) <= 1000 * n -> 1001 * n <= 1000 * 10 ^ p ->
  forall x : R,
    (Rabs (x - (1 + ln (IZR n) / ln 10)) <= 1 / 4000)%R ->
    Int_part x = p.
Proof.
  intros Hp Hlo Hhi x Hx.
  assert (H10 : (0 < ln 10)%R).
  { rewrite <- ln_1. apply ln_increasing; lra. }
  pose proof ln_10_lt_3 as H3. pose proof ln_1001_lower as Hm.
  assert (Hp1 : 0 < 10 ^ (p - 1)) by (apply Z.pow_pos_nonneg; lia).
  assert (Hpp : 0 < 10 ^ p) by (apply Z.pow_pos_nonneg; lia).
  assert (Hn : 0 < n) by lia.
  assert (Hlo' : (IZR (p - 1) * ln 10 + ln (1001 / 1000) <= ln (IZR n))%R).
  { rewrite <- ln_IZR_pow10 by lia.
    rewrite <- ln_mult; [|now apply IZR_lt|lra].
    apply ln_le_mono.
    - apply Rmult_lt_0_compat; [now apply IZR_lt|lra].
    - apply IZR_le in Hlo. rewrite !mult_IZR in Hlo. lra. }
  assert (Hhi' : (ln (IZR n) + ln (1001 / 1000) <= IZR p * ln 10)%R).
  { rewrite <- ln_IZR_pow10 by lia.
    rewrite <- ln_mult; [|now apply IZR_lt|lra].
    apply ln_le_mono.
    - apply Rmult_lt_0_compat; [now apply IZR_lt|lra].
    - apply IZR_le in Hhi. rewrite !mult_IZR in Hhi. lra. }
  rewrite minus_IZR in Hlo'.
  set (L := (ln (IZR n) / ln 10)%R) in *.
  assert (EL : ln (IZR n) = (L * ln 10)%R).
  { unfold L. field. lra. }
  rewrite EL in Hlo', Hhi'.
  assert (Hc : (1 / 4000 * ln 10 < ln (1001 / 1000))%R) by lra.
  assert (HL1 : (IZR p - 1 + 1 / 4000 < L)%R) by nra.
  assert (HL2 : (L < IZR p - 1 / 4000)%R) by nra.
  pose proof (Rle_abs (x - (1 + L))) as Ha.
  pose proof (Rle_abs (- (x - (1 + L)))) as Hb.
  rewrite Rabs_Ropp in Hb.
  symmetry. apply Int_part_spec. lra.
Qed.

(** ** Integer columns *)

(** C1.  On a non-empty column whose values are all integers, with [b] the
    bit length of the largest absolute value: [b <= 16] gives [SMALLINT],
    [17 <= b <= 32] gives [INTEGER], [33 <= b <= 64] gives [BIGINT], and
    [b >= 65] gives a [DECIMAL] with one positive size parameter. *)
Theorem unify_integer_sizing (vals : list value) :
  vals <> [] -> forallb is_int vals = true ->
  let b := bit_length (max_abs_value vals) in
  (b <= 16 -> unify_datatype vals = Ok "SMALLINT") /\
  (17 <= b <= 32 -> unify_datatype vals = Ok "INTEGER") /\
  (33 <= b <= 64 -> unify_datatype vals = Ok "BIGINT") /\
  (65 <= b ->
   exists p, 0 < p /\
     unify_datatype vals = Ok ("DECIMAL(" ++ str_of_int p ++ ")")).
Proof.
  intros Hne Hint b.
  rewrite (unify_datatype_int vals Hne Hint). fold b. cbv zeta.
  repeat split; intros Hb.
  - destruct (Z.leb_spec b 16); [reflexivity|lia].
  - destruct (Z.leb_spec b 16); [lia|].
    destruct (Z.leb_spec b 32); [reflexivity|lia].
  - destruct (Z.leb_spec b 16); [lia|].
    destruct (Z.leb_spec b 32); [lia|].
    destruct (Z.leb_spec b 64); [reflexivity|lia].
  - destruct (Z.leb_spec b 16); [lia|].
    destruct (Z.leb_spec b 32); [lia|].
    destruct (Z.leb_spec b 64); [lia|].
    exists (int_1_plus_log10 (2 ^ b)). split; [|reflexivity].
    unfold int_1_plus_log10.
    assert (0 < 2 ^ b) by (apply Z.pow_pos_nonneg; lia).
    destruct (floor_log10_spec (2 ^ b)); lia.
Qed.

(** The boundary columns of C1: largest absolute values of exactly 16, 17,
    33 and 65 bits. *)
Lemma unify_integer_sizing_witness :
  unify_datatype [VInt 40000; VInt (-65535)] = Ok "SMALLINT" /\
  unify_datatype [VInt (-65536); VBool true] = Ok "INTEGER" /\
  unify_datatype [VInt (2 ^ 32); VInt 7] = Ok "BIGINT" /\
  exists p, 0 < p /\
    unify_datatype [VInt 0; VInt (- 2 ^ 64)]
    = Ok ("DECIMAL(" ++ str_of_int p ++ ")").
Proof.
  split; [|split; [|split]].
  - apply (unify_integer_sizing [VInt 40000; VInt (-65535)]);
      [discriminate|reflexivity|vm_compute; discriminate].
  - apply (unify_integer_sizing [VInt (-65536); VBool true]);
      [discriminate|reflexivity|vm_compute; split; discriminate].
  - apply (unify_integer_sizing [VInt (2 ^ 32); VInt 7]);
      [discriminate|reflexivity|vm_compute; split; discriminate].
  - apply (unify_integer_sizing [VInt 0; VInt (- 2 ^ 64)]);
      [discriminate|reflexivity|vm_compute; discriminate].
Defined.

(** C2 as stated fails: a column whose largest absolute value has 65 bits
    gets [DECIMAL(20)], while [ceil(log10(2^65)) + 1] is 21. *)
Lemma unify_big_integer_precision_counterexample :
  let vals := [VInt (2 ^ 64); VInt (-5)] in
  forallb is_int vals = true /\
  bit_length (max_abs_value vals) = 65 /\
  ceil_log10 (2 ^ 65) + 1 = 21 /\
  unify_datatype vals = Ok "DECIMAL(20)" /\
  unify_datatype vals
  <> Ok ("DECIMAL(" ++ str_of_int (ceil_log10 (2 ^ 65) + 1) ++ ")").
Proof.
  cbv zeta. repeat split; try (vm_compute; reflexivity).
  vm_compute. discriminate.
Qed.

(** C2, amended.  On a non-empty column of integers whose largest absolute
    value has a bit length [b] from 65 to 1023, the lengths at which [2^b]
    is a finite double, the result is [DECIMAL(p)] with the single
    parameter [p = ceil(log10(2^b))], the number of decimal digits of
    [2^b]: [10^(p-1) < 2^b < 10^p].  The rounding of the double makes no
    difference there: every evaluation of [1 + log10(2^b)] that is off by
    no more than 1/4000 truncates to [p]. *)
Theorem unify_big_integer_precision (vals : list value) :
  vals <> [] -> forallb is_int vals = true ->
  let b := bit_length (max_abs_value vals) in
  64 < b <= 1023 ->
  let p := ceil_log10 (2 ^ b) in
  unify_datatype vals = Ok ("DECIMAL(" ++ str_of_int p ++ ")") /\
  10 ^ (p - 1) < 2 ^ b < 10 ^ p /\
  forall x : R,
    (Rabs (x - (1 + ln (IZR (2 ^ b)) / ln 10)) <= 1 / 4000)%R ->
    Int_part x = p.
Proof.
  intros Hne Hint b Hb p.
  rewrite (unify_datatype_int vals Hne Hint). fold b. cbv zeta.
  destruct (Z.leb_spec b 16); [lia|].
  destruct (Z.leb_spec b 32); [lia|].
  destruct (Z.leb_spec b 64); [lia|].
  rewrite int_1_plus_log10_pow2 by lia. fold p.
  destruct (pow2_margin b Hb) as (Hp & Hlo & Hhi). fold p in Hp, Hlo, Hhi.
  assert (Hp1 : 0 < 10 ^ (p - 1)) by (apply Z.pow_pos_nonneg; lia).
  assert (Hpb : 0 < 2 ^ b) by (apply Z.pow_pos_nonneg; lia).
  split; [reflexivity|]. split; [lia|].
  now apply log10_margin.
Qed.

Lemma unify_big_integer_precision_witness :
  unify_datatype [VInt (2 ^ 64); VInt (-5)] = Ok "DECIMAL(20)" /\
  10 ^ 19 < 2 ^ 65 < 10 ^ 20 /\
  forall x : R,
    (Rabs (x - (1 + ln (IZR (2 ^ 65)) / ln 10)) <= 1 / 4000)%R ->
    Int_part x = 20.
Proof.
  apply (unify_big_integer_precision [VInt (2 ^ 64); VInt (-5)]);
    [discriminate|reflexivity|vm_compute; split; [reflexivity|discriminate]].
Defined.

(** ** Outcomes of the unifier *)

Lemma all_as_None_of_In {A : Type} (f : value -> option A)
    (vals : list value) (v : value) :
  In v vals -> f v = None -> all_as f vals = None.
Proof.
  induction vals as [|w vals IH]; simpl; [tauto|].
  intros [->|Hin] Hv.
  - now rewrite Hv.
  - destruct (f w); [|reflexivity]. now rewrite (IH Hin Hv).
Qed.

Lemma forallb_false_of_In {A : Type} (p : A -> bool) (l : list A) (x : A) :
  In x l -> p x = false -> forallb p l = false.
Proof.
  intros Hin Hx. destruct (forallb p l) eqn:E; [|reflexivity].
  rewrite forallb_forall in E. now rewrite (E x Hin) in Hx.
Qed.

(** The currency scan raises only on an empty string, and only
    [IndexError]. *)
Lemma all_currency_raise (vals : list value) (e : exn) :
  all_currency vals = Raise e ->
  e = IndexError "string index out of range" /\ In (VStr "") vals.
Proof.
  induction vals as [|v vals IH]; simpl; [discriminate|].
  destruct v; try discriminate.
  destruct s as [|c s].
  - intros H; inversion H; auto.
  - destruct (Ascii.eqb c "$"); [|discriminate].
    intros H. destruct (IH H); auto.
Qed.

(** The currency scan answers [True] only on columns made of strings. *)
Lemma all_currency_true (vals : list value) (v : value) :
  all_currency vals = Ok true -> In v vals -> exists s, v = VStr s.
Proof.
  induction vals as [|w vals IH]; simpl; [tauto|].
  destruct w; try discriminate.
  destruct s as [|c s]; [discriminate|].
  destruct (Ascii.eqb c "$"); [|discriminate].
  intros H [<-|Hin]; eauto.
Qed.

Lemma unify_datatype_label (vals : list value) (t : string) :
  unify_datatype vals = Ok t -> type_label t.
Proof.
  unfold unify_datatype.
  destruct (forallb is_float vals).
  { intros H; inversion H; constructor. }
  destruct (all_as as_int vals) as [ns|].
  { destruct (py_max (map Z.abs ns)) as [m|e]; simpl; [|discriminate].
    destruct (bit_length m <=? 16); [intros H; inversion H; constructor|].
    destruct (bit_length m <=? 32); [intros H; inversion H; constructor|].
    destruct (bit_length m <=? 64); intros H; inversion H; constructor. }
  destruct (all_as as_Decimal vals) as [ds|].
  { destruct (decimal_scan ds) as [r l]. intros H; inversion H. constructor. }
  destruct (all_currency vals) as [[|]|e]; simpl; [| |discriminate].
  - intros H; inversion H; constructor.
  - destruct (forallb is_Fraction vals); intros H; inversion H; constructor.
Qed.

Lemma all_as_length {A : Type} (f : value -> option A)
    (vals : list value) (l : list A) :
  all_as f vals = Some l -> List.length l = List.length vals.
Proof.
  revert l; induction vals as [|v vals IH]; simpl; intros l H.
  - now inversion H.
  - destruct (f v); [|discriminate].
    destruct (all_as f vals); [|discriminate].
    inversion H; simpl. now rewrite (IH _ eq_refl).
Qed.

(** The only exception the unifier raises is the [IndexError] of [v[0]]
    on an empty string of the column. *)
Lemma unify_datatype_raise (vals : list value) (e : exn) :
  unify_datatype vals = Raise e ->
  e = IndexError "string index out of range" /\ In (VStr "") vals.
Proof.
  unfold unify_datatype.
  destruct (forallb is_float vals) eqn:Ef; [discriminate|].
  destruct (all_as as_int vals) as [ns|] eqn:Ei.
  { destruct ns as [|n ns].
    - apply all_as_length in Ei. destruct vals; [|discriminate Ei].
      discriminate Ef.
    - simpl.
      destruct (bit_length _ <=? 16); [discriminate|].
      destruct (bit_length _ <=? 32); [discriminate|].
      destruct (bit_length _ <=? 64); discriminate. }
  destruct (all_as as_Decimal vals) as [ds|].
  { destruct (decimal_scan ds); discriminate. }
  destruct (all_currency vals) as [[|]|e'] eqn:Ec; simpl.
  - discriminate.
  - destruct (forallb is_Fraction vals); discriminate.
  - intros H; inversion H; subst. now apply all_currency_raise.
Qed.

(** Away from empty strings the unifier always returns a label. *)
Lemma unify_datatype_total (vals : list value) :
  ~ In (VStr "") vals -> exists t, unify_datatype vals = Ok t /\ type_label t.
Proof.
  intros Hno. destruct (unify_datatype vals) as [t|e] eqn:E.
  - exists t. split; [reflexivity|]. now apply unify_datatype_label in E.
  - apply unify_datatype_raise in E. tauto.
Qed.

(** No label is the empty string, so [not coldef] never holds. *)
Lemma type_label_not_falsy (t : string) : type_label t -> falsy t = false.
Proof. destruct 1; reflexivity. Qed.

(** On a column that holds a float and an integer no rule before the
    currency scan matches, and what the scan does not raise ends in
    [TEXT]. *)
Lemma unify_datatype_mixed (vals : list value) (x y : value) :
  In x vals -> is_float x = true -> In y vals -> is_int y = true ->
  unify_datatype vals =
    do cur <- all_currency vals; Ok "TEXT".
Proof.
  intros Hx Fx Hy Iy. unfold unify_datatype.
  rewrite (forallb_false_of_In is_float vals y Hy)
    by (destruct y; simpl in *; congruence).
  rewrite (all_as_None_of_In as_int vals x Hx)
    by (destruct x; simpl in *; congruence).
  rewrite (all_as_None_of_In as_Decimal vals x Hx)
    by (destruct x; simpl in *; congruence).
  destruct (all_currency vals) as [[|]|e] eqn:Ec; simpl; [| |reflexivity].
  - destruct (all_currency_true vals x Ec Hx) as [s ->]. discriminate.
  - rewrite (forallb_false_of_In is_Fraction vals x Hx)
      by (destruct x; simpl in *; congruence).
    reflexivity.
Qed.

Lemma unify_datatype_mixed_text (vals : list value) (x y : value) :
  In x vals -> is_float x = true -> In y vals -> is_int y = true ->
  ~ In (VStr "") vals ->
  unify_datatype vals = Ok "TEXT".
Proof.
  intros Hx Fx Hy Iy Hno.
  rewrite (unify_datatype_mixed vals x y Hx Fx Hy Iy).
  destruct (all_currency vals) as [c|e] eqn:Ec; [reflexivity|].
  apply all_currency_raise in Ec. tauto.
Qed.

(** ** Strings: append and [rstrip] *)

Lemma append_assoc (s t u : string) : (s ++ t) ++ u = s ++ t ++ u.
Proof. induction s as [|a s IH]; simpl; [reflexivity|now rewrite IH]. Qed.

Lemma append_empty_inv (s t : string) : s ++ t = "" -> s = "" /\ t = "".
Proof. destruct s; simpl; [auto|discriminate]. Qed.

(** What [rstrip] leaves of the tail, when it leaves something, it leaves
    of the whole string. *)
Lemma rstrip_append (c : ascii) (s t : string) :
  rstrip c t <> "" -> rstrip c (s ++ t) = s ++ rstrip c t.
Proof.
  intros Ht. induction s as [|a s IH]; simpl; [reflexivity|].
  rewrite IH. destruct (s ++ rstrip c t) eqn:E; [|reflexivity].
  apply append_empty_inv in E. tauto.
Qed.

Lemma comma_free_end_append (s t : string) :
  comma_free_end t -> comma_free_end (s ++ t).
Proof.
  intros [Hne Hstrip]. split.
  - intros E. apply append_empty_inv in E. tauto.
  - rewrite append_assoc, rstrip_append; rewrite Hstrip; auto.
Qed.

Lemma type_label_comma_free_end (t : string) :
  type_label t -> comma_free_end t.
Proof.
  destruct 1; try (split; [discriminate|reflexivity]);
    repeat apply comma_free_end_append; split; (discriminate || reflexivity).
Qed.

(** ** Formatting *)

Lemma fold_left_append_lines (g : string * string -> string)
    (types : dict) (sql : list string) :
  fold_left (fun sql ct => List.app sql [g ct]) types sql
  = List.app sql (map g types).
Proof.
  revert sql; induction types as [|ct types IH]; simpl; intros sql.
  - now rewrite app_nil_r.
  - rewrite IH, <- app_assoc. reflexivity.
Qed.

Lemma column_line_comma (ct : string * string) :
  "    " ++ fst ct ++ " " ++ snd ct ++ "," = column_line ct ++ ",".
Proof. unfold column_line. now rewrite !append_assoc. Qed.

Lemma rstrip_column_line (ct : string * string) :
  comma_free_end (snd ct) ->
  rstrip "," (column_line ct ++ ",") = column_line ct.
Proof.
  intros H. unfold column_line.
  now repeat apply comma_free_end_append.
Qed.

Lemma update_last_lines (h : string) (cols : dict) :
  Forall (fun ct => comma_free_end (snd ct)) cols ->
  update_last (rstrip ",") (h :: map (fun ct => column_line ct ++ ",") cols)
  = Ok (match cols with
        | [] => [rstrip "," h]
        | _ :: _ => h :: column_lines cols
        end).
Proof.
  intros Hall. revert h.
  induction Hall as [|ct cols Hct Hall IH]; intros h; [reflexivity|].
  change (update_last (rstrip ",")
            (h :: map (fun ct => column_line ct ++ ",") (ct :: cols)))
    with (do r <- update_last (rstrip ",")
                    ((column_line ct ++ ",")
                       :: map (fun ct => column_line ct ++ ",") cols);
          Ok (h :: r)).
  rewrite IH. destruct cols as [|ct' cols]; cbn [bind].
  - now rewrite rstrip_column_line.
  - reflexivity.
Qed.

Lemma rstrip_header (name : string) :
  rstrip "," ("CREATE TABLE " ++ name ++ " (") = "CREATE TABLE " ++ name ++ " (".
Proof.
  rewrite (rstrip_append "," "CREATE TABLE "), (rstrip_append "," name);
    try reflexivity.
  - simpl; discriminate.
  - rewrite rstrip_append by (simpl; discriminate).
    intros E. apply append_empty_inv in E as [_ E]. discriminate E.
Qed.

(** The formatter produces the text of the specification whenever the
    types are labels that do not end in a comma. *)
Lemma format_ddl_text (tablename : string) (types : dict) :
  Forall (fun ct => comma_free_end (snd ct)) types ->
  format_ddl tablename types = Ok (create_table_text tablename types).
Proof.
  intros Hall. unfold format_ddl, create_table_text.
  rewrite (fold_left_append_lines
             (fun ct => "    " ++ fst ct ++ " " ++ snd ct ++ ",")).
  rewrite (map_ext _ (fun ct => column_line ct ++ ",") column_line_comma).
  cbn [List.app]. rewrite (update_last_lines _ types Hall). cbn [bind].
  destruct types; [|reflexivity].
  now rewrite rstrip_header.
Qed.

(** ** Columns of a batch *)

Lemma getitem_tuple (row : pyobj) (n : nat) :
  is_tuple row = true ->
  getitem row n =
    if (n <? List.length (row_items row))%nat
    then Ok (nth n (row_items row) VNone)
    else Raise (IndexError "tuple index out of range").
Proof.
  intros Ht. destruct row as [c items|items|? ?|? ? items];
    try discriminate; simpl;
    (destruct (Nat.ltb_spec n (List.length items)) as [Hlt|Hge];
     [ destruct (nth_error items n) eqn:E;
       [ now rewrite (nth_error_nth _ _ VNone E)
       | apply nth_error_None in E; lia ]
     | apply nth_error_None in Hge; now rewrite Hge ]).
Qed.

Lemma gather_column (dataset : list pyobj) (n : nat) :
  forallb is_tuple dataset = true ->
  mapM (fun row => getitem row n) dataset =
    if wide_enough dataset n then Ok (column dataset n)
    else Raise (IndexError "tuple index out of range").
Proof.
  induction dataset as [|row dataset IH]; simpl; [reflexivity|].
  intros H. apply andb_true_iff in H as [Hrow Hrest].
  rewrite (getitem_tuple row n Hrow).
  destruct (n <? List.length (row_items row))%nat; simpl; [|reflexivity].
  rewrite (IH Hrest). now destruct (wide_enough dataset n).
Qed.

(** ** Validation *)

Lemma infer_schema_validated (U : list value -> result string)
    (dataset : list pyobj) :
  validated dataset = true ->
  infer_schema_with U dataset =
    do row0 <- first_row dataset;
    do fields <- get_fields row0;
    do types <- unify_columns U dataset 0 fields [];
    format_ddl (class_name row0) types.
Proof.
  unfold validated, infer_schema_with. intros H.
  apply andb_true_iff in H as [H H3]. apply andb_true_iff in H as [H1 H2].
  rewrite H2, H3. apply Nat.leb_le in H1.
  destruct (Nat.ltb_spec (List.length dataset) 2); [lia|reflexivity].
Qed.

Lemma namedtuples_are_tuples (dataset : list pyobj) :
  forallb (fun t => is_tuple t && has_fields t) dataset = true ->
  forallb is_tuple dataset = true.
Proof.
  rewrite !forallb_forall. intros H t Ht.
  specialize (H t Ht). now apply andb_true_iff in H as [H _].
Qed.

Lemma validated_tuples (dataset : list pyobj) :
  validated dataset = true -> forallb is_tuple dataset = true.
Proof.
  unfold validated. intros H.
  apply andb_true_iff in H as [H _]. apply andb_true_iff in H as [_ H].
  now apply namedtuples_are_tuples.
Qed.

(** ** The column loop *)

Lemma mapM_length {A B : Type} (f : A -> result B) (l : list A) (bs : list B) :
  mapM f l = Ok bs -> List.length bs = List.length l.
Proof.
  revert bs; induction l as [|a l IH]; simpl; intros bs H.
  - now inversion H.
  - destruct (f a); [|discriminate]. simpl in H.
    destruct (mapM f l); [|discriminate].
    inversion H; simpl. now rewrite (IH _ eq_refl).
Qed.

Lemma mapM_Forall {A B : Type} (f : A -> result B) (P : B -> Prop)
    (l : list A) (bs : list B) :
  (forall a b, f a = Ok b -> P b) -> mapM f l = Ok bs -> Forall P bs.
Proof.
  intros HP. revert bs; induction l as [|a l IH]; simpl; intros bs H.
  - inversion H. constructor.
  - destruct (f a) eqn:Ea; [|discriminate]. simpl in H.
    destruct (mapM f l); [|discriminate].
    inversion H. constructor; eauto.
Qed.

Lemma dict_set_fresh (types : dict) (col coldef : string) :
  ~ In col (keys types) ->
  dict_set types col coldef = List.app types [(col, coldef)].
Proof.
  induction types as [|[k v] types IH]; simpl; [reflexivity|].
  intros Hno. destruct (String.eqb_spec k col) as [->|Hne]; [tauto|].
  rewrite IH; tauto.
Qed.

(** With every column gathered and unified, the loop ends with one entry
    per field, in field order. *)
Lemma unify_columns_ok (U : list value -> result string)
    (dataset : list pyobj) (fields : list string) :
  forallb is_tuple dataset = true ->
  forall (n : nat) (types : dict) (tys : list string),
    (forall i, (i < List.length fields)%nat -> wide_enough dataset (n + i) = true) ->
    mapM U (map (column dataset) (seq n (List.length fields))) = Ok tys ->
    Forall (fun t => falsy t = false) tys ->
    NoDup fields ->
    (forall col, In col fields -> ~ In col (keys types)) ->
    unify_columns U dataset n fields types
    = Ok (List.app types (combine fields tys)).
Proof.
  intros Htup.
  induction fields as [|col fields IH]; intros n types tys Hwide HU Hfalsy Hnd Hfresh.
  - simpl. now rewrite app_nil_r.
  - cbn [unify_columns]. rewrite (gather_column dataset n Htup).
    replace (wide_enough dataset n) with true
      by (symmetry; rewrite <- (Nat.add_0_r n); apply Hwide; simpl; lia).
    cbn [bind]. simpl in HU.
    destruct (U (column dataset n)) as [coldef|] eqn:EU; [|discriminate].
    cbn [bind] in *.
    destruct (mapM U (map (column dataset) (seq (S n) (List.length fields))))
      as [tys'|] eqn:Erest; [|discriminate].
    inversion HU; subst tys. inversion Hfalsy as [|? ? Hc Hrest]; subst.
    rewrite Hc. inversion Hnd as [|? ? Hnotin Hnd']; subst.
    rewrite (IH (S n) (dict_set types col coldef) tys').
    + rewrite dict_set_fresh by (apply Hfresh; now left).
      now rewrite <- app_assoc.
    + intros i Hi. replace (S n + i)%nat with (n + S i)%nat by lia.
      apply Hwide. simpl; lia.
    + exact Erest.
    + assumption.
    + assumption.
    + intros c Hc'. rewrite dict_set_fresh by (apply Hfresh; now left).
      unfold keys. rewrite map_app, in_app_iff. simpl.
      intros [Hin|[<-|[]]]; [|tauto].
      apply (Hfresh c); [now right|exact Hin].
Qed.

(** With the unifier of the notebook the loop fails only with an
    [IndexError]: a record too short for a field position, or an empty
    string in a column. *)
Lemma unify_columns_raise (dataset : list pyobj) (fields : list string) :
  forallb is_tuple dataset = true ->
  forall (n : nat) (types : dict) (e : exn),
    unify_columns unify_datatype dataset n fields types = Raise e ->
    exists msg, e = IndexError msg.
Proof.
  intros Htup.
  induction fields as [|col fields IH]; intros n types e; [discriminate|].
  cbn [unify_columns]. rewrite (gather_column dataset n Htup).
  destruct (wide_enough dataset n); cbn [bind].
  - destruct (unify_datatype (column dataset n)) as [coldef|e'] eqn:EU;
      cbn [bind].
    + rewrite (type_label_not_falsy coldef (unify_datatype_label _ _ EU)).
      apply IH.
    + intros H; inversion H; subst.
      apply unify_datatype_raise in EU as [-> _]. eauto.
  - intros H; inversion H. eauto.
Qed.

(** A record shorter than the field tuple stops the loop with an
    [IndexError]. *)
Lemma unify_columns_short (dataset : list pyobj) (fields : list string) :
  forallb is_tuple dataset = true ->
  forall (n : nat) (types : dict),
    (forall i, (i < n)%nat -> wide_enough dataset i = true) ->
    (exists row, In row dataset /\
                 (List.length (row_items row) < n + List.length fields)%nat) ->
    exists msg,
      unify_columns unify_datatype dataset n fields types
      = Raise (IndexError msg).
Proof.
  intros Htup.
  induction fields as [|col fields IH]; intros n types Hwide (row & Hin & Hshort).
  - exfalso. simpl in Hshort.
    destruct n as [|n]; [lia|].
    specialize (Hwide (List.length (row_items row)) ltac:(lia)).
    unfold wide_enough in Hwide. rewrite forallb_forall in Hwide.
    specialize (Hwide row Hin). apply Nat.ltb_lt in Hwide. lia.
  - cbn [unify_columns]. rewrite (gather_column dataset n Htup).
    destruct (wide_enough dataset n) eqn:Ew; cbn [bind]; [|eauto].
    destruct (unify_datatype (column dataset n)) as [coldef|e'] eqn:EU;
      cbn [bind].
    + rewrite (type_label_not_falsy coldef (unify_datatype_label _ _ EU)).
      apply IH.
      * intros i Hi. destruct (Nat.eq_dec i n) as [->|]; [exact Ew|].
        apply Hwide. lia.
      * exists row. split; [exact Hin|]. simpl in Hshort. lia.
    + apply unify_datatype_raise in EU as [-> _]. eauto.
Qed.

(** ** Valid batches *)

Lemma nodup_constant (a : string) (l : list string) :
  l <> [] -> (forall x, In x l -> x = a) -> nodup string_dec l = [a].
Proof.
  induction l as [|x l IH]; [congruence|]. intros _ Hall.
  assert (x = a) by (apply Hall; now left). subst x.
  simpl. destruct (in_dec string_dec a l) as [Hin|Hnotin].
  - apply IH; [now destruct l|]. intros y Hy. apply Hall. now right.
  - destruct l as [|y l]; [reflexivity|].
    exfalso. apply Hnotin. left. apply Hall. right. now left.
Qed.

Lemma valid_batch_validated (cls : ntclass) (dataset : list pyobj) :
  valid_batch cls dataset -> validated dataset = true.
Proof.
  intros (Hlen & _ & Hall). unfold validated.
  rewrite Forall_forall in Hall.
  repeat (apply andb_true_iff; split).
  - now apply Nat.leb_le.
  - apply forallb_forall. intros t Ht.
    destruct (Hall t Ht) as (items & -> & _). reflexivity.
  - rewrite (nodup_constant (nt_name cls)); [reflexivity| |].
    + destruct dataset; [simpl in Hlen; lia|discriminate].
    + intros x Hx. apply in_map_iff in Hx as (t & <- & Ht).
      destruct (Hall t Ht) as (items & -> & _). reflexivity.
Qed.

Lemma valid_batch_wide (cls : ntclass) (dataset : list pyobj) (i : nat) :
  valid_batch cls dataset -> (i < List.length (nt_fields cls))%nat ->
  wide_enough dataset i = true.
Proof.
  intros (_ & _ & Hall) Hi. rewrite Forall_forall in Hall.
  apply forallb_forall. intros t Ht.
  destruct (Hall t Ht) as (items & -> & Hlen). simpl.
  apply Nat.ltb_lt. lia.
Qed.

(** ** The schema inferrer on sample data *)

(** C5.  On the three records of [data1] the inferrer returns the
    create-table text for [Numbers1] with the column types
    [DOUBLE PRECISION], [DECIMAL(26, 25)], [BIGINT], [SMALLINT] and
    [DOUBLE PRECISION]. *)
Theorem infer_schema_data1 :
  infer_schema_nt data1 =
  Ok ("CREATE TABLE Numbers1 (" ++ nl ++
      "    a DOUBLE PRECISION," ++ nl ++
      "    b DECIMAL(26, 25)," ++ nl ++
      "    c BIGINT," ++ nl ++
      "    d SMALLINT," ++ nl ++
      "    e DOUBLE PRECISION" ++ nl ++
      ");").
Proof. vm_compute. reflexivity. Qed.

(** ** Validation failures *)

(** C7.  A batch of fewer than two records, the empty batch included,
    fails with the error whose message says that at least two rows are
    required; this holds whatever the unifier is, so no column is unified
    before the failure. *)
Theorem infer_schema_insufficient_data (dataset : list pyobj) :
  (List.length dataset < 2)%nat ->
  infer_schema_nt dataset
  = Raise (ValueError "At least two rows are required for inference") /\
  forall U : list value -> result string,
    infer_schema_with U dataset
    = Raise (ValueError "At least two rows are required for inference").
Proof.
  intros Hlen.
  assert (H : forall U, infer_schema_with U dataset
            = Raise (ValueError "At least two rows are required for inference")).
  { intros U. unfold infer_schema_with.
    destruct (Nat.ltb_spec (List.length dataset) 2); [reflexivity|lia]. }
  split; [apply H|exact H].
Qed.

Lemma infer_schema_insufficient_data_witness :
  infer_schema_nt [NamedTuple Numbers1 [VFloat 1; Dec "10" (-1); VInt 1;
                                         VInt 2; VFraction (1 # 2)]]
  = Raise (ValueError "At least two rows are required for inference").
Proof.
  apply (infer_schema_insufficient_data
           [NamedTuple Numbers1 [VFloat 1; Dec "10" (-1); VInt 1;
                                 VInt 2; VFraction (1 # 2)]]).
  simpl. lia.
Defined.




(** ** Output assembly *)

Lemma column_lines_length (cols : list (string * string)) :
  List.length (column_lines cols) = List.length cols.
Proof.
  induction cols as [|ct cols IH]; [reflexivity|].
  destruct cols as [|ct' cols]; [reflexivity|].
  change (column_lines (ct :: ct' :: cols))
    with ((column_line ct ++ ",") :: column_lines (ct' :: cols)).
  cbn [List.length]. cbn [List.length] in IH. now rewrite IH.
Qed.

Lemma combine_fst {A B : Type} (l : list A) (l' : list B) :
  List.length l' = List.length l -> map fst (combine l l') = l.
Proof.
  revert l'; induction l as [|a l IH]; destruct l' as [|b l']; simpl;
    intros H; try discriminate; [reflexivity|].
  rewrite IH; [reflexivity|lia].
Qed.

Lemma Forall_combine_snd {A B : Type} (P : B -> Prop) (l : list A)
    (l' : list B) :
  Forall P l' -> Forall (fun ab => P (snd ab)) (combine l l').
Proof.
  intros H. revert l; induction H as [|b l' Hb H IH]; intros [|a l]; simpl;
    constructor; auto.
Qed.

(** On a valid batch whose columns unify, the inferrer returns the text of
    the specification. *)
Lemma infer_schema_valid_text (cls : ntclass) (dataset : list pyobj)
    (tys : list string) :
  valid_batch cls dataset ->
  mapM unify_datatype (columns dataset (List.length (nt_fields cls))) = Ok tys ->
  infer_schema_nt dataset
  = Ok (create_table_text (nt_name cls) (combine (nt_fields cls) tys)).
Proof.
  intros Hvalid Htys.
  pose proof (valid_batch_validated cls dataset Hvalid) as Hval.
  assert (Hlabels : Forall type_label tys).
  { apply (mapM_Forall unify_datatype type_label _ _
             unify_datatype_label Htys). }
  unfold infer_schema_nt. rewrite (infer_schema_validated _ _ Hval).
  destruct Hvalid as (Hlen & Hnd & Hall).
  destruct dataset as [|row0 dataset']; [simpl in Hlen; lia|].
  cbn [first_row bind].
  pose proof (Forall_inv Hall) as (items0 & -> & Hlen0).
  cbn [get_fields bind class_name].
  rewrite (unify_columns_ok unify_datatype _ (nt_fields cls)
             (validated_tuples _ Hval) 0%nat [] tys).
  - cbn [bind List.app]. apply format_ddl_text.
    apply Forall_combine_snd.
    apply (Forall_impl _ type_label_comma_free_end Hlabels).
  - intros i Hi. apply (valid_batch_wide cls); [|exact Hi].
    repeat split; assumption.
  - exact Htys.
  - apply (Forall_impl _ type_label_not_falsy Hlabels).
  - exact Hnd.
  - intros col _ [].
Qed.

(** On a valid batch whose columns unify to the types [tys], the inferrer
    returns the create-table text: the opening line with the name of the
    record type, one line per column with a comma after each but the last,
    and the closing line; the columns are the declared fields, in their
    declared order. *)
Theorem infer_schema_output (cls : ntclass) (dataset : list pyobj)
    (tys : list string) :
  valid_batch cls dataset ->
  mapM unify_datatype (columns dataset (List.length (nt_fields cls))) = Ok tys ->
  let cols := combine (nt_fields cls) tys in
  infer_schema_nt dataset = Ok (create_table_text (nt_name cls) cols) /\
  map fst cols = nt_fields cls /\
  List.length (column_lines cols) = List.length (nt_fields cls).
Proof.
  intros Hvalid Htys cols.
  assert (Hlen : List.length tys = List.length (nt_fields cls)).
  { apply mapM_length in Htys. unfold columns in Htys.
    now rewrite length_map, length_seq in Htys. }
  split; [|split].
  - now apply infer_schema_valid_text.
  - now apply combine_fst.
  - rewrite column_lines_length. unfold cols.
    rewrite length_combine. lia.
Qed.

(** In a batch with no empty string among its values, every column that
    can be gathered unifies. *)
Lemma columns_unify (dataset : list pyobj) :
  (forall row, In row dataset -> ~ In (VStr "") (row_items row)) ->
  forall ns : list nat,
    (forall n, In n ns -> wide_enough dataset n = true) ->
    exists tys, mapM unify_datatype (map (column dataset) ns) = Ok tys.
Proof.
  intros Hno. induction ns as [|n ns IH]; intros Hwide; simpl; [eauto|].
  destruct (unify_datatype_total (column dataset n)) as (t & -> & _).
  - unfold column. rewrite in_map_iff. intros (row & Hrow & Hin).
    apply (Hno row Hin). rewrite <- Hrow. apply nth_In.
    specialize (Hwide n ltac:(now left)).
    unfold wide_enough in Hwide. rewrite forallb_forall in Hwide.
    now apply Nat.ltb_lt, Hwide.
  - destruct IH as [tys ->]; [intros; apply Hwide; now right|].
    simpl. eauto.
Qed.

(** A valid batch with no empty string among its values always gets its
    create-table text. *)
Lemma infer_schema_valid_total (cls : ntclass) (dataset : list pyobj) :
  valid_batch cls dataset ->
  (forall row, In row dataset -> ~ In (VStr "") (row_items row)) ->
  exists tys,
    List.length tys = List.length (nt_fields cls) /\
    Forall type_label tys /\
    infer_schema_nt dataset
    = Ok (create_table_text (nt_name cls) (combine (nt_fields cls) tys)).
Proof.
  intros Hvalid Hno.
  destruct (columns_unify dataset Hno (seq 0 (List.length (nt_fields cls))))
    as [tys Htys].
  { intros n Hn. apply in_seq in Hn.
    apply (valid_batch_wide cls); [exact Hvalid|lia]. }
  exists tys. split; [|split].
  - apply mapM_length in Htys. now rewrite length_map, length_seq in Htys.
  - apply (mapM_Forall unify_datatype type_label _ _
             unify_datatype_label Htys).
  - now apply infer_schema_valid_text.
Qed.

Lemma infer_schema_output_witness :
  infer_schema_nt [NamedTuple Point [VInt 1; VStr "$5"];
                   NamedTuple Point [VInt (-70000); VStr "$12.50"]]
  = Ok ("CREATE TABLE Point (" ++ nl ++
        "    x INTEGER," ++ nl ++
        "    y DECIMAL(10, 2)" ++ nl ++
        ");").
Proof.
  apply (infer_schema_output Point
           [NamedTuple Point [VInt 1; VStr "$5"];
            NamedTuple Point [VInt (-70000); VStr "$12.50"]]
           ["INTEGER"; "DECIMAL(10, 2)"]).
  - split; [simpl; lia|]. split.
    + repeat constructor; simpl; intuition discriminate.
    + repeat constructor; eexists; split; reflexivity.
  - reflexivity.
Defined.

(** ** Classes that share a name *)

(** C10.  The uniformity check compares class names only.  A batch over two
    distinct classes named alike passes validation, and the table name and
    the fields are those of the first record.  In a validated batch, a
    record with fewer items than the first record has fields makes the
    gathering of a column raise [IndexError], which is none of the
    validation failures (all of them [ValueError]). *)
Theorem same_name_classes_not_told_apart :
  (exists c1 c2 items1 items2,
     c1 <> c2 /\ nt_name c1 = nt_name c2 /\
     let dataset := [NamedTuple c1 items1; NamedTuple c2 items2] in
     validated dataset = true /\
     exists tys,
       infer_schema_nt dataset
       = Ok (create_table_text (nt_name c1) (combine (nt_fields c1) tys))) /\
  (forall dataset row0 fields,
     validated dataset = true ->
     first_row dataset = Ok row0 ->
     get_fields row0 = Ok fields ->
     (exists row, In row dataset /\
        (List.length (row_items row) < List.length fields)%nat) ->
     exists msg, infer_schema_nt dataset = Raise (IndexError msg)).
Proof.
  split.
  - exists PointXY, PointXYZ, [VInt 1; VInt 2], [VInt 3; VInt 4; VInt 5].
    split; [discriminate|]. split; [reflexivity|].
    split; [reflexivity|].
    exists ["SMALLINT"; "SMALLINT"]. reflexivity.
  - intros dataset row0 fields Hval Hrow0 Hfields Hshort.
    unfold infer_schema_nt.
    rewrite (infer_schema_validated _ _ Hval), Hrow0. cbn [bind].
    rewrite Hfields. cbn [bind].
    destruct (unify_columns_short dataset fields
                (validated_tuples _ Hval) 0%nat []) as [msg ->].
    + intros i Hi. lia.
    + exact Hshort.
    + exists msg. reflexivity.
Qed.

Lemma same_name_classes_not_told_apart_witness :
  exists msg,
    infer_schema_nt [NamedTuple PointXYZ [VInt 3; VInt 4; VInt 5];
                     NamedTuple PointXY [VInt 1; VInt 2]]
    = Raise (IndexError msg).
Proof.
  apply (proj2 same_name_classes_not_told_apart
           [NamedTuple PointXYZ [VInt 3; VInt 4; VInt 5];
            NamedTuple PointXY [VInt 1; VInt 2]]
           (NamedTuple PointXYZ [VInt 3; VInt 4; VInt 5])
           ["x"; "y"; "z"]).
  - reflexivity.
  - reflexivity.
  - reflexivity.
  - exists (NamedTuple PointXY [VInt 1; VInt 2]).
    split; [simpl; tauto|simpl; lia].
Defined.

(** ** The failure for a column that does not unify *)

Lemma update_last_raise (f : string -> string) (sql : list string) (e : exn) :
  update_last f sql = Raise e -> exists msg, e = IndexError msg.
Proof.
  revert e; induction sql as [|x sql IH]; intros e; simpl.
  - intros H; inversion H; eauto.
  - destruct sql as [|y sql]; [discriminate|].
    destruct (update_last f (y :: sql)) as [r|e'] eqn:E; [discriminate|].
    intros H; inversion H; subst. now apply IH.
Qed.

(** The [ValueError]s of the inferrer are the three validation failures. *)
Lemma infer_schema_nt_value_error (dataset : list pyobj) (m : string) :
  infer_schema_nt dataset = Raise (ValueError m) ->
  m = "At least two rows are required for inference" \/
  m = "The dataset does not appear to be exclusively namedtuples" \/
  m = "The dataset has namedtuples of varying types".
Proof.
  unfold infer_schema_nt, infer_schema_with.
  destruct (List.length dataset <? 2)%nat; [intros H; inversion H; auto|].
  destruct (forallb (fun t => is_tuple t && has_fields t) dataset) eqn:E2;
    cbn [negb]; [|intros H; inversion H; auto].
  destruct (negb _); [intros H; inversion H; auto|].
  destruct dataset as [|row0 dataset']; [discriminate|].
  cbn [first_row bind].
  destruct (get_fields row0) as [fields|e0] eqn:Ef; cbn [bind].
  2:{ destruct row0 as [? ?|?|? [?|]|? ? ?]; simpl in Ef; inversion Ef;
      discriminate. }
  destruct (unify_columns unify_datatype (row0 :: dataset') 0 fields [])
    as [types|e1] eqn:Eu; cbn [bind].
  - unfold format_ddl.
    destruct (update_last _ _) as [sql|e2] eqn:El; cbn [bind];
      [discriminate|].
    apply update_last_raise in El as [msg ->]. discriminate.
  - apply unify_columns_raise in Eu as [msg ->];
      [discriminate|now apply namedtuples_are_tuples].
Qed.

(** X16.  The failure that names a column which could not be unified is
    never reached: the unifier returns no empty label. *)
Lemma ununifiable_column_unreachable (dataset : list pyobj) (col : string) :
  infer_schema_nt dataset
  <> Raise (ValueError ("Could not find unified datatype for column " ++ col)).
Proof.
  intros H. apply infer_schema_nt_value_error in H.
  simpl in H. destruct H as [H|[H|H]]; discriminate H.
Qed.

(** ** Empty strings *)

(** C4.  The unifier does not always return: on a column that starts with
    an empty string the currency test indexes the string and raises
    [IndexError], and the inferrer fails with it on a valid batch. *)
Theorem unify_datatype_empty_string_raises :
  unify_datatype [VStr ""; VStr "abc"]
  = Raise (IndexError "string index out of range") /\
  valid_batch Note [NamedTuple Note [VInt 1; VStr ""];
                    NamedTuple Note [VInt 2; VStr "abc"]] /\
  infer_schema_nt [NamedTuple Note [VInt 1; VStr ""];
                   NamedTuple Note [VInt 2; VStr "abc"]]
  = Raise (IndexError "string index out of range").
Proof.
  split; [reflexivity|]. split; [|reflexivity].
  split; [simpl; lia|]. split.
  - repeat constructor; simpl; intuition discriminate.
  - repeat constructor; eexists; split; reflexivity.
Qed.

(** C9.  Not every valid batch gets its statement: on the valid batch of
    two [Note] records whose text column starts with an empty string the
    unification of that column raises [IndexError], and the inferrer
    returns no text at all. *)
Theorem infer_schema_valid_batch_raises :
  let dataset := [NamedTuple Note [VInt 1; VStr ""];
                  NamedTuple Note [VInt 2; VStr "abc"]] in
  valid_batch Note dataset /\
  unify_datatype (column dataset 1)
  = Raise (IndexError "string index out of range") /\
  infer_schema_nt dataset
  = Raise (IndexError "string index out of range") /\
  forall out, infer_schema_nt dataset <> Ok out.
Proof.
  cbv zeta. split; [|split; [reflexivity|split; [reflexivity|]]].
  - split; [simpl; lia|]. split.
    + repeat constructor; simpl; intuition discriminate.
    + repeat constructor; eexists; split; reflexivity.
  - intros out H. vm_compute in H. discriminate H.
Qed.

(** C6.  A column with a float and an integer does not resolve to [TEXT]
    when an empty string comes first: the currency test raises
    [IndexError] before the fallback is reached. *)
Theorem unify_mixed_column_empty_string_raises :
  let vals := [VStr ""; VFloat 1.5; VInt 2] in
  (exists x y, In x vals /\ is_float x = true /\
               In y vals /\ is_int y = true) /\
  unify_datatype vals = Raise (IndexError "string index out of range").
Proof.
  cbv zeta. split; [|reflexivity].
  exists (VFloat 1.5), (VInt 2). simpl. tauto.
Qed.

(** ** Decimal columns *)

Lemma unify_datatype_decimal (vals : list value) (ds : list Decimal) :
  vals <> [] -> all_as as_Decimal vals = Some ds ->
  unify_datatype vals =
    let to_right := fst (decimal_scan ds) + 1 in
    let to_left := snd (decimal_scan ds) in
    Ok ("DECIMAL(" ++ str_of_int (to_left + to_right) ++ ", "
                   ++ str_of_int to_right ++ ")").
Proof.
  intros Hne Hds. unfold unify_datatype.
  destruct vals as [|v vals]; [congruence|].
  assert (Hv : exists d, v = VDecimal d).
  { simpl in Hds. destruct v; try discriminate. eauto. }
  destruct Hv as [d ->].
  rewrite (forallb_false_of_In is_float _ (VDecimal d)) by (simpl; auto).
  rewrite (all_as_None_of_In as_int _ (VDecimal d)) by (simpl; auto).
  rewrite Hds. now destruct (decimal_scan ds).
Qed.

(** C3.  On a decimal column with a value written without a decimal point
    the code does not count that value's digits: [find] answers -1, and the
    column of [Decimal('12345')] and [Decimal('1.5')] gets [DECIMAL(3, 2)]
    where the digit counts of the specification give [DECIMAL(7, 2)]. *)
Theorem unify_decimal_without_point :
  let ds := [mkDecimal false "12345" (Finite 0);
             mkDecimal false "15" (Finite (-1))] in
  forallb is_Decimal (map VDecimal ds) = true /\
  map decimal_str ds = ["12345"; "1.5"] /\
  unify_datatype (map VDecimal ds) = Ok "DECIMAL(3, 2)" /\
  spec_decimal_type ds = "DECIMAL(7, 2)".
Proof. cbv zeta. repeat split. Qed.

(** *** Where the scan and the specification agree *)

Lemma find_cons (c a : ascii) (s : string) :
  find c (String a s) =
    if Ascii.eqb a c then 0
    else if find c s <? 0 then -1 else 1 + find c s.
Proof. reflexivity. Qed.

Lemma find_nonneg_or_absent (c : ascii) (s : string) : -1 <= find c s.
Proof.
  induction s as [|a s IH]; [simpl; lia|]. rewrite find_cons.
  destruct (Ascii.eqb a c); [lia|].
  destruct (Z.ltb_spec (find c s) 0); lia.
Qed.

Lemma find_before (c : ascii) (s : string) :
  contains c s = true -> find c s = Z.of_nat (String.length (before c s)).
Proof.
  induction s as [|a s IH]; [discriminate|].
  rewrite find_cons. cbn [contains before].
  destruct (Ascii.eqb a c); cbn [orb]; [reflexivity|].
  intros H. rewrite (IH H). cbn [String.length].
  destruct (Z.ltb_spec (Z.of_nat (String.length (before c s))) 0); lia.
Qed.

Lemma find_append_absent (c : ascii) (x y : string) :
  contains c x = false ->
  find c (x ++ String c y) = Z.of_nat (String.length x).
Proof.
  induction x as [|a x IH]; cbn [append contains String.length];
    rewrite find_cons.
  - now rewrite Ascii.eqb_refl.
  - destruct (Ascii.eqb a c); cbn [orb]; [discriminate|].
    intros H. rewrite (IH H).
    destruct (Z.ltb_spec (Z.of_nat (String.length x)) 0); lia.
Qed.

Lemma split_at_first (c : ascii) (s : string) :
  contains c s = true -> s = before c s ++ String c (after c s).
Proof.
  induction s as [|a s IH]; simpl; [discriminate|].
  destruct (Ascii.eqb_spec a c) as [->|Hne]; simpl; [reflexivity|].
  intros H. now rewrite <- (IH H).
Qed.

Lemma contains_append (c : ascii) (x y : string) :
  contains c (x ++ y) = contains c x || contains c y.
Proof.
  induction x as [|a x IH]; simpl; [reflexivity|].
  now rewrite IH, orb_assoc.
Qed.

Lemma contains_rev_string (c : ascii) (s : string) :
  contains c (rev_string s) = contains c s.
Proof.
  induction s as [|a s IH]; simpl; [reflexivity|].
  rewrite contains_append, IH. simpl. rewrite orb_false_r. apply orb_comm.
Qed.

Lemma length_append (x y : string) :
  String.length (x ++ y) = (String.length x + String.length y)%nat.
Proof. induction x as [|a x IH]; simpl; [reflexivity|now rewrite IH]. Qed.

Lemma length_rev_string (s : string) :
  String.length (rev_string s) = String.length s.
Proof.
  induction s as [|a s IH]; simpl; [reflexivity|].
  rewrite length_append, IH. simpl. lia.
Qed.

Lemma rev_string_append (x y : string) :
  rev_string (x ++ y) = rev_string y ++ rev_string x.
Proof.
  induction x as [|a x IH]; simpl.
  - induction (rev_string y) as [|b r IHr]; simpl; [reflexivity|].
    now rewrite <- IHr.
  - now rewrite IH, append_assoc.
Qed.

(** In the reversed string the point sits after the digits that follow
    it. *)
Lemma find_rev_after (c : ascii) (s : string) :
  contains c s = true -> contains c (after c s) = false ->
  find c (rev_string s) = Z.of_nat (String.length (after c s)).
Proof.
  intros Hc Hafter. rewrite (split_at_first c s Hc) at 1.
  rewrite rev_string_append. simpl. rewrite append_assoc. simpl.
  rewrite find_append_absent by now rewrite contains_rev_string.
  now rewrite length_rev_string.
Qed.

Lemma all_digits_contains (c : ascii) (s : string) :
  is_digit c = false -> all_digits s = true -> contains c s = false.
Proof.
  intros Hc. induction s as [|a s IH]; simpl; [reflexivity|].
  intros H. apply andb_true_iff in H as [Ha Hs].
  rewrite (IH Hs), orb_false_r.
  destruct (Ascii.eqb_spec a c); [congruence|reflexivity].
Qed.

Lemma all_digits_count (s : string) :
  all_digits s = true -> count_digits s = Z.of_nat (String.length s).
Proof.
  induction s as [|a s IH]; simpl; [reflexivity|].
  intros H. apply andb_true_iff in H as [-> Hs]. rewrite (IH Hs). lia.
Qed.

Lemma before_absent (c : ascii) (s : string) :
  contains c s = false -> before c s = s.
Proof.
  induction s as [|a s IH]; simpl; [reflexivity|].
  destruct (Ascii.eqb a c); simpl; [discriminate|].
  intros H. now rewrite (IH H).
Qed.

(** On a string in point form, [find] counts the digits on each side. *)
Lemma point_form_counts (s : string) :
  point_form s = true ->
  find "." s = digits_left s /\
  find "." (rev_string s) = digits_right s /\
  1 <= digits_left s.
Proof.
  unfold point_form. intros H.
  apply andb_true_iff in H as [H Hb]. apply andb_true_iff in H as [H Ha].
  apply andb_true_iff in H as [Hc Hne].
  assert (HE : contains "E" s = false).
  { rewrite (split_at_first "." s Hc), contains_append. simpl.
    rewrite (all_digits_contains "E" _ eq_refl Ha),
      (all_digits_contains "E" _ eq_refl Hb).
    reflexivity. }
  unfold digits_left, digits_right, mantissa.
  rewrite (before_absent "E" s HE), (all_digits_count _ Ha),
    (all_digits_count _ Hb).
  repeat split.
  - now apply find_before.
  - apply find_rev_after; [exact Hc|].
    now apply (all_digits_contains "." _ eq_refl).
  - destruct (before "." s); [discriminate Hne|simpl; lia].
Qed.

Lemma max_digits_nonneg (f : string -> Z) (ds : list Decimal) :
  0 <= max_digits f ds.
Proof. unfold max_digits. induction ds; simpl; lia. Qed.

Lemma decimal_scan_point_form (ds : list Decimal) :
  Forall (fun d => point_form (decimal_str d) = true) ds ->
  forall r l : Z,
    0 <= r -> 0 <= l ->
    fold_left decimal_step ds (r, l)
    = (Z.max r (max_digits digits_right ds),
       Z.max l (max_digits digits_left ds)).
Proof.
  induction 1 as [|d ds Hd Hall IH]; intros r l Hr Hl.
  - unfold max_digits. simpl. f_equal; lia.
  - destruct (point_form_counts _ Hd) as (El & Er & Hpos).
    pose proof (find_nonneg_or_absent "." (rev_string (decimal_str d))).
    cbn [fold_left]. unfold decimal_step at 2. cbn [fst snd].
    rewrite IH by lia. rewrite El, Er.
    unfold max_digits. cbn [map fold_right]. f_equal; lia.
Qed.

(** On a non-empty column of decimals that are all in point form, the
    unifier returns the type of the specification. *)
Lemma unify_decimal_point_form (ds : list Decimal) :
  ds <> [] ->
  Forall (fun d => point_form (decimal_str d) = true) ds ->
  unify_datatype (map VDecimal ds) = Ok (spec_decimal_type ds).
Proof.
  intros Hne Hall.
  assert (Hds : all_as as_Decimal (map VDecimal ds) = Some ds).
  { clear. induction ds as [|d ds IH]; simpl; [reflexivity|now rewrite IH]. }
  rewrite (unify_datatype_decimal _ ds); [|now destruct ds|exact Hds].
  unfold decimal_scan, spec_decimal_type.
  rewrite (decimal_scan_point_form ds Hall 0 1) by lia.
  cbn [fst snd].
  pose proof (max_digits_nonneg digits_right ds).
  assert (1 <= max_digits digits_left ds).
  { destruct Hall as [|d ds' Hd _]; [congruence|].
    destruct (point_form_counts _ Hd) as (_ & _ & Hpos).
    unfold max_digits. simpl. lia. }
  rewrite (Z.max_r 0), (Z.max_r 1) by lia. reflexivity.
Qed.

(** The decimal column of [data1] is in point form. *)
Example unify_decimal_data1 :
  unify_datatype [Dec "115573" (-5); Dec "1155727349790921717935726" (-24);
                  Dec "10" (-1)]
  = Ok (spec_decimal_type
          [mkDecimal false "115573" (Finite (-5));
           mkDecimal false "1155727349790921717935726" (Finite (-24));
           mkDecimal false "10" (Finite (-1))]).
Proof.
  apply (unify_decimal_point_form
           [mkDecimal false "115573" (Finite (-5));
            mkDecimal false "1155727349790921717935726" (Finite (-24));
            mkDecimal false "10" (Finite (-1))]);
    [discriminate|repeat constructor].
Qed.

(** *** Decimals whose string is in point form *)

Lemma all_digits_append (x y : string) :
  all_digits (x ++ y) = all_digits x && all_digits y.
Proof.
  induction x as [|a x IH]; simpl; [reflexivity|].
  now rewrite IH, andb_assoc.
Qed.

Lemma all_digits_zeros (k : Z) : all_digits (zeros k) = true.
Proof.
  unfold zeros. induction (Z.to_nat k) as [|n IH]; simpl; auto.
Qed.

Lemma all_digits_substring (n m : nat) (s : string) :
  all_digits s = true -> all_digits (substring n m s) = true.
Proof.
  revert n m; induction s as [|a s IH]; intros n m H.
  - now destruct n, m.
  - simpl in H. apply andb_true_iff in H as [Ha Hs].
    destruct n as [|n]; [destruct m as [|m]|]; simpl; auto.
    now rewrite Ha, IH.
Qed.

Lemma before_append_absent (c : ascii) (x y : string) :
  contains c x = false -> before c (x ++ String c y) = x.
Proof.
  induction x as [|a x IH]; simpl.
  - now rewrite Ascii.eqb_refl.
  - destruct (Ascii.eqb a c); simpl; [discriminate|].
    intros H. now rewrite (IH H).
Qed.

Lemma after_append_absent (c : ascii) (x y : string) :
  contains c x = false -> after c (x ++ String c y) = y.
Proof.
  induction x as [|a x IH]; simpl.
  - now rewrite Ascii.eqb_refl.
  - destruct (Ascii.eqb a c); simpl; [discriminate|]. exact IH.
Qed.

Lemma point_form_parts (x y : string) :
  x <> "" -> all_digits x = true -> all_digits y = true ->
  point_form (x ++ String "." y) = true.
Proof.
  intros Hne Hx Hy. unfold point_form.
  pose proof (all_digits_contains "." x eq_refl Hx) as Hc.
  rewrite contains_append, before_append_absent, after_append_absent
    by exact Hc.
  cbn [contains]. rewrite Ascii.eqb_refl, Hc, Hx, Hy.
  destruct x; [congruence|reflexivity].
Qed.

(** A non-negative finite decimal with a negative exponent that needs no
    scientific notation is written digits, point, digits. *)
Lemma decimal_str_point_form (d : Decimal) (e : Z) :
  dec_sign d = false -> dec_exp_of d = Finite e ->
  e < 0 -> -6 < e + Z.of_nat (String.length (dec_int d)) ->
  all_digits (dec_int d) = true ->
  point_form (decimal_str d) = true.
Proof.
  intros Hsign Hexp He Hleft Hdigits. unfold decimal_str.
  rewrite Hsign, Hexp. cbv zeta.
  set (len := Z.of_nat (String.length (dec_int d))) in *.
  destruct (Z.leb_spec e 0); [|lia].
  destruct (Z.ltb_spec (-6) (e + len)); [|lia]. cbn [andb].
  rewrite Z.eqb_refl.
  destruct (Z.leb_spec (e + len) 0) as [Hdp|Hdp].
  - change ("" ++ "0" ++ ("." ++ zeros (- (e + len)) ++ dec_int d) ++ "")
      with ("0" ++ String "." ((zeros (- (e + len)) ++ dec_int d) ++ "")).
    apply point_form_parts; [discriminate|reflexivity|].
    now rewrite !all_digits_append, all_digits_zeros, Hdigits.
  - destruct (Z.leb_spec len (e + len)); [lia|].
    change ("" ++ ?x ++ ("." ++ ?y) ++ "") with (x ++ String "." (y ++ "")).
    apply point_form_parts.
    + destruct (dec_int d) as [|a s]; [simpl in len; lia|].
      destruct (Z.to_nat (e + len)) as [|k] eqn:Ek; [lia|].
      simpl. discriminate.
    + now apply all_digits_substring.
    + rewrite all_digits_append, all_digits_substring by assumption.
      reflexivity.
Qed.

(** * Further properties of the unifier *)

(** ** The unifier rule by rule *)

Lemma all_as_forallb {A : Type} (f : value -> option A) (p : value -> bool)
    (vals : list value) :
  (forall v, p v = match f v with Some _ => true | None => false end) ->
  forallb p vals = match all_as f vals with Some _ => true | None => false end.
Proof.
  intros Hp. induction vals as [|v vals IH]; simpl; [reflexivity|].
  rewrite Hp, IH. destruct (f v); [|reflexivity].
  now destruct (all_as f vals).
Qed.

Lemma forallb_is_int_all_as (vals : list value) :
  forallb is_int vals = false -> all_as as_int vals = None.
Proof.
  rewrite (all_as_forallb as_int is_int) by (now intros []).
  now destruct (all_as as_int vals).
Qed.

Lemma all_as_Decimal_decimals (vals : list value) :
  all_as as_Decimal vals =
    if forallb is_Decimal vals then Some (decimals vals) else None.
Proof.
  induction vals as [|v vals IH]; simpl; [reflexivity|].
  destruct v; simpl; try reflexivity.
  rewrite IH. now destruct (forallb is_Decimal vals).
Qed.

Lemma forallb_nonempty {A : Type} (p : A -> bool) (l : list A) :
  forallb p l = false -> l <> [].
Proof. now destruct l. Qed.

(** Without an empty string the currency scan is the plain test on every
    value. *)
Lemma all_currency_forallb (vals : list value) :
  ~ In (VStr "") vals -> all_currency vals = Ok (forallb is_currency vals).
Proof.
  induction vals as [|v vals IH]; simpl; [reflexivity|].
  intros Hno.
  assert (Hrest : ~ In (VStr "") vals) by tauto.
  destruct v; try reflexivity.
  destruct s as [|c s]; [tauto|]. simpl.
  destruct (Ascii.eqb c "$"); [now apply IH|reflexivity].
Qed.

Lemma forallb_currency_no_empty (vals : list value) :
  forallb is_currency vals = true -> ~ In (VStr "") vals.
Proof.
  intros H Hin. rewrite forallb_forall in H. now specialize (H _ Hin).
Qed.

(** The unifier as a cascade of tests on the whole column. *)
Lemma unify_datatype_rules (vals : list value) :
  unify_datatype vals =
    if forallb is_float vals then Ok "DOUBLE PRECISION"
    else if forallb is_int vals then
      let size := bit_length (max_abs_value vals) in
      if size <=? 16 then Ok "SMALLINT"
      else if size <=? 32 then Ok "INTEGER"
      else if size <=? 64 then Ok "BIGINT"
      else Ok ("DECIMAL(" ++ str_of_int (int_1_plus_log10 (2 ^ size)) ++ ")")
    else if forallb is_Decimal vals then
      let to_right := fst (decimal_scan (decimals vals)) + 1 in
      let to_left := snd (decimal_scan (decimals vals)) in
      Ok ("DECIMAL(" ++ str_of_int (to_left + to_right) ++ ", "
                     ++ str_of_int to_right ++ ")")
    else
      do cur <- all_currency vals;
      if cur then Ok "DECIMAL(10, 2)"
      else if forallb is_Fraction vals then Ok "DOUBLE PRECISION"
      else Ok "TEXT".
Proof.
  destruct (forallb is_float vals) eqn:Ef.
  { unfold unify_datatype. now rewrite Ef. }
  destruct (forallb is_int vals) eqn:Ei.
  { rewrite unify_datatype_int; [reflexivity| |exact Ei].
    now apply (forallb_nonempty is_float). }
  unfold unify_datatype.
  rewrite Ef, (forallb_is_int_all_as vals Ei), all_as_Decimal_decimals.
  destruct (forallb is_Decimal vals); [|reflexivity].
  now destruct (decimal_scan (decimals vals)).
Qed.

Ltac label_neq :=
  repeat match goal with
         | |- context [if ?b then _ else _] => destruct b
         end;
  simpl; try discriminate; try reflexivity.

(** X1.  The unifier answers [DOUBLE PRECISION] exactly on the columns made
    of floats only (the empty column among them) and on the columns made
    of fractions only. *)
Theorem unify_double_precision_iff (vals : list value) :
  unify_datatype vals = Ok "DOUBLE PRECISION" <->
  forallb is_float vals = true \/ forallb is_Fraction vals = true.
Proof.
  rewrite unify_datatype_rules. split.
  - destruct (forallb is_float vals); [auto|].
    destruct (forallb is_int vals); [cbv zeta; label_neq|].
    destruct (forallb is_Decimal vals); [cbv zeta; simpl; discriminate|].
    destruct (all_currency vals) as [[|]|e]; simpl; try discriminate.
    destruct (forallb is_Fraction vals); [auto|discriminate].
  - intros [Hf|Hq]; [now rewrite Hf|].
    destruct (forallb is_float vals) eqn:Ef; [reflexivity|].
    pose proof (forallb_nonempty _ _ Ef) as Hne.
    destruct vals as [|v vals]; [congruence|].
    simpl in Hq. apply andb_true_iff in Hq as [Hv Hq'].
    destruct v; try discriminate Hv.
    rewrite (forallb_false_of_In is_int _ (VFraction q)) by (simpl; auto).
    rewrite (forallb_false_of_In is_Decimal _ (VFraction q)) by (simpl; auto).
    cbn [all_currency bind forallb is_Fraction andb]. now rewrite Hq'.
Qed.

(** X2.  A non-empty column of strings that all begin with a dollar sign
    is typed [DECIMAL(10, 2)], whatever follows the sign. *)
Theorem unify_currency_column (vals : list value) :
  vals <> [] -> forallb is_currency vals = true ->
  unify_datatype vals = Ok "DECIMAL(10, 2)".
Proof.
  intros Hne Hc. rewrite unify_datatype_rules.
  destruct vals as [|v vals]; [congruence|].
  assert (Hv : is_currency v = true).
  { simpl in Hc. now apply andb_true_iff in Hc as [Hv _]. }
  rewrite (forallb_false_of_In is_float _ v),
    (forallb_false_of_In is_int _ v),
    (forallb_false_of_In is_Decimal _ v);
    try (now left); try (destruct v; simpl in *; congruence).
  rewrite all_currency_forallb by now apply forallb_currency_no_empty.
  now rewrite Hc.
Qed.

Lemma unify_currency_column_witness :
  unify_datatype [VStr "$5"; VStr "$12.50"; VStr "$ n/a"]
  = Ok "DECIMAL(10, 2)".
Proof.
  apply (unify_currency_column [VStr "$5"; VStr "$12.50"; VStr "$ n/a"]);
    [discriminate|reflexivity].
Defined.

(** X3.  On a column without an empty string the unifier answers [TEXT]
    exactly when none of its five typed rules covers the whole column. *)
Theorem unify_text_iff_no_rule (vals : list value) :
  ~ In (VStr "") vals ->
  (unify_datatype vals = Ok "TEXT" <-> some_rule_matches vals = false).
Proof.
  intros Hno. rewrite unify_datatype_rules, (all_currency_forallb vals Hno).
  unfold some_rule_matches. cbn [bind].
  destruct (forallb is_float vals); cbn [orb];
    [split; discriminate|].
  destruct (forallb is_int vals); cbn [orb].
  { split; [cbv zeta; label_neq|discriminate]. }
  destruct (forallb is_Decimal vals); cbn [orb].
  { split; [cbv zeta; simpl; discriminate|discriminate]. }
  destruct (forallb is_currency vals); cbn [orb];
    [split; discriminate|].
  destruct (forallb is_Fraction vals); split; try discriminate; reflexivity.
Qed.

Lemma unify_text_iff_no_rule_witness :
  unify_datatype [VInt 3; VNone; VStr "n/a"] = Ok "TEXT".
Proof.
  apply (unify_text_iff_no_rule [VInt 3; VNone; VStr "n/a"]).
  - simpl. intuition discriminate.
  - reflexivity.
Defined.

(** ** When the unifier raises *)

Lemma all_currency_raise_iff (vals : list value) (e : exn) :
  all_currency vals = Raise e <->
  e = IndexError "string index out of range" /\
  exists pre post,
    vals = List.app pre (VStr "" :: post) /\ forallb is_currency pre = true.
Proof.
  induction vals as [|v vals IH].
  - split; [discriminate|].
    intros (_ & [|? ?] & post & H & _); discriminate H.
  - split.
    + cbn [all_currency]. intros H.
      destruct v; try discriminate H.
      destruct s as [|c s].
      * inversion H. split; [reflexivity|]. now exists [], vals.
      * destruct (Ascii.eqb c "$") eqn:Ec; [|discriminate H].
        apply IH in H as (-> & pre & post & -> & Hpre).
        split; [reflexivity|].
        exists (VStr (String c s) :: pre), post. split; [reflexivity|].
        simpl. now rewrite Ec.
    + intros (-> & pre & post & Hvals & Hpre).
      destruct pre as [|w pre]; simpl in Hvals; inversion Hvals; subst.
      * reflexivity.
      * simpl in Hpre. apply andb_true_iff in Hpre as [Hw Hpre].
        destruct w; try discriminate Hw.
        destruct s as [|c s]; [discriminate Hw|].
        cbn [all_currency]. simpl in Hw. rewrite Hw.
        apply IH. split; [reflexivity|]. now exists pre, post.
Qed.

(** X4.  The unifier raises exactly when the column starts with any number
    of dollar strings followed by an empty string; the exception is then
    the [IndexError] of indexing that string. *)
Theorem unify_datatype_raises_iff (vals : list value) (e : exn) :
  unify_datatype vals = Raise e <->
  e = IndexError "string index out of range" /\
  exists pre post,
    vals = List.app pre (VStr "" :: post) /\ forallb is_currency pre = true.
Proof.
  rewrite <- all_currency_raise_iff. rewrite unify_datatype_rules. split.
  - destruct (forallb is_float vals); [discriminate|].
    destruct (forallb is_int vals); [cbv zeta; label_neq|].
    destruct (forallb is_Decimal vals); [discriminate|].
    destruct (all_currency vals) as [[|]|e']; cbn [bind];
      try discriminate; try (intros H; now inversion H).
    destruct (forallb is_Fraction vals); discriminate.
  - intros H. pose proof H as Hraise.
    apply all_currency_raise_iff in H as (_ & pre & post & Hvals & Hpre).
    assert (Hv : exists v, In v vals /\ exists s, v = VStr s).
    { subst vals. destruct pre as [|w pre].
      - exists (VStr ""). split; [now left|eauto].
      - exists w. split; [now left|].
        simpl in Hpre. apply andb_true_iff in Hpre as [Hw _].
        destruct w; try discriminate Hw. eauto. }
    destruct Hv as (v & Hin & s & ->).
    rewrite (forallb_false_of_In is_float _ _ Hin eq_refl),
      (forallb_false_of_In is_int _ _ Hin eq_refl),
      (forallb_false_of_In is_Decimal _ _ Hin eq_refl).
    now rewrite Hraise.
Qed.

(** ** Integer columns by value *)

Lemma bit_length_le (n k : Z) :
  0 <= n -> 0 <= k -> (bit_length n <=? k) = (n <? 2 ^ k).
Proof.
  intros Hn Hk.
  assert (Hpow : 0 < 2 ^ k) by (apply Z.pow_pos_nonneg; lia).
  destruct (Z.eq_dec n 0) as [->|Hn0].
  - unfold bit_length. simpl.
    destruct (Z.leb_spec 0 k), (Z.ltb_spec 0 (2 ^ k)); lia.
  - pose proof (bit_length_spec n ltac:(lia)) as [Hlo Hhi].
    pose proof (bit_length_nonneg n) as Hb.
    destruct (Z.leb_spec (bit_length n) k) as [Hle|Hgt],
             (Z.ltb_spec n (2 ^ k)) as [Hlt|Hge]; try reflexivity; exfalso.
    + assert (2 ^ bit_length n <= 2 ^ k) by (apply Z.pow_le_mono_r; lia).
      lia.
    + assert (2 ^ k <= 2 ^ (bit_length n - 1))
        by (apply Z.pow_le_mono_r; lia).
      lia.
Qed.

(** X5.  A non-empty column of integers is typed by its largest absolute
    value [m]: [SMALLINT] exactly when [m < 2^16], [INTEGER] exactly when
    [2^16 <= m < 2^32], [BIGINT] exactly when [2^32 <= m < 2^64]; the sign
    of the values plays no part. *)
Theorem unify_integer_by_value (vals : list value) :
  vals <> [] -> forallb is_int vals = true ->
  let m := max_abs_value vals in
  (unify_datatype vals = Ok "SMALLINT" <-> m < 2 ^ 16) /\
  (unify_datatype vals = Ok "INTEGER" <-> 2 ^ 16 <= m < 2 ^ 32) /\
  (unify_datatype vals = Ok "BIGINT" <-> 2 ^ 32 <= m < 2 ^ 64).
Proof.
  intros Hne Hint m.
  pose proof (max_abs_value_nonneg vals) as Hm. fold m in Hm.
  rewrite (unify_datatype_int vals Hne Hint). fold m. cbv zeta.
  rewrite !bit_length_le by lia.
  assert (2 ^ 16 < 2 ^ 32 /\ 2 ^ 32 < 2 ^ 64) as [H1 H2] by (split; reflexivity).
  destruct (Z.ltb_spec m (2 ^ 16)), (Z.ltb_spec m (2 ^ 32)),
    (Z.ltb_spec m (2 ^ 64));
    repeat split; intros; try discriminate; try reflexivity; try lia.
Qed.

Lemma unify_integer_by_value_witness :
  unify_datatype [VInt (-65535); VBool true] = Ok "SMALLINT" <->
  max_abs_value [VInt (-65535); VBool true] < 2 ^ 16.
Proof.
  apply (unify_integer_by_value [VInt (-65535); VBool true]);
    [discriminate|reflexivity].
Defined.

(** X6.  The [DECIMAL(p)] given to a column of large integers has room for
    every value of the column: each absolute value is below [10^p]. *)
Theorem unify_big_integer_fits (vals : list value) :
  vals <> [] -> forallb is_int vals = true ->
  2 ^ 64 <= max_abs_value vals ->
  exists p,
    unify_datatype vals = Ok ("DECIMAL(" ++ str_of_int p ++ ")") /\
    forall v, In v vals -> Z.abs (int_of v) < 10 ^ p.
Proof.
  intros Hne Hint Hbig.
  pose proof (max_abs_value_nonneg vals) as Hm.
  set (b := bit_length (max_abs_value vals)).
  exists (int_1_plus_log10 (2 ^ b)). split.
  - rewrite (unify_datatype_int vals Hne Hint). fold b. cbv zeta.
    unfold b. rewrite !bit_length_le by lia.
    assert (2 ^ 16 < 2 ^ 32 /\ 2 ^ 32 < 2 ^ 64) as [H1 H2]
        by (split; reflexivity).
    destruct (Z.ltb_spec (max_abs_value vals) (2 ^ 16)); [lia|].
    destruct (Z.ltb_spec (max_abs_value vals) (2 ^ 32)); [lia|].
    destruct (Z.ltb_spec (max_abs_value vals) (2 ^ 64)); [lia|reflexivity].
  - intros v Hin. pose proof (max_abs_value_upper vals v Hin) as Hv.
    assert (Hpos : 0 < max_abs_value vals).
    { assert (0 < 2 ^ 64) by reflexivity. lia. }
    pose proof (bit_length_spec _ Hpos) as [_ Hhi]. fold b in Hhi.
    assert (H1 : 1 <= 2 ^ b) by lia.
    destruct (floor_log10_spec (2 ^ b) H1) as (_ & _ & Hp).
    unfold int_1_plus_log10.
    replace (1 + floor_log10 (2 ^ b)) with (floor_log10 (2 ^ b) + 1) by lia.
    lia.
Qed.

Lemma unify_big_integer_fits_witness :
  exists p,
    unify_datatype [VInt (- 10 ^ 20); VInt 7]
    = Ok ("DECIMAL(" ++ str_of_int p ++ ")") /\
    forall v, In v [VInt (- 10 ^ 20); VInt 7] -> Z.abs (int_of v) < 10 ^ p.
Proof.
  apply (unify_big_integer_fits [VInt (- 10 ^ 20); VInt 7]);
    [discriminate|reflexivity|vm_compute; discriminate].
Defined.

(** ** Decimal columns: the size parameters *)

Lemma decimal_scan_lower (ds : list Decimal) (r l : Z) :
  r <= fst (fold_left decimal_step ds (r, l)) /\
  l <= snd (fold_left decimal_step ds (r, l)).
Proof.
  revert r l; induction ds as [|d ds IH]; intros r l; simpl; [lia|].
  unfold decimal_step at 2 4. cbn [fst snd].
  destruct (IH (Z.max r (find "." (rev_string (decimal_str d))))
               (Z.max l (find "." (decimal_str d)))) as [H1 H2].
  lia.
Qed.

(** X7.  Whatever the decimals of a non-empty column look like (integral,
    negative, in scientific notation, infinite or not a number), the type
    is [DECIMAL(t, s)] with at least one fractional digit and at least one
    digit more in total: [1 <= s < t]. *)
Theorem unify_decimal_parameters (vals : list value) :
  vals <> [] -> forallb is_Decimal vals = true ->
  exists t s,
    unify_datatype vals
    = Ok ("DECIMAL(" ++ str_of_int t ++ ", " ++ str_of_int s ++ ")") /\
    1 <= s < t.
Proof.
  intros Hne Hdec. rewrite unify_datatype_rules.
  destruct vals as [|v vals]; [congruence|].
  assert (Hv : is_Decimal v = true).
  { simpl in Hdec. now apply andb_true_iff in Hdec as [Hv _]. }
  rewrite (forallb_false_of_In is_float _ v),
    (forallb_false_of_In is_int _ v), Hdec;
    try (now left); try (destruct v; simpl in *; congruence).
  cbv zeta. eexists _, _. split; [reflexivity|].
  destruct (decimal_scan_lower (decimals (v :: vals)) 0 1) as [H1 H2].
  unfold decimal_scan. lia.
Qed.

Lemma unify_decimal_parameters_witness :
  exists t s,
    unify_datatype [VDecimal (mkDecimal true "" Infinity);
                    VDecimal (mkDecimal false "15" (Finite 9))]
    = Ok ("DECIMAL(" ++ str_of_int t ++ ", " ++ str_of_int s ++ ")") /\
    1 <= s < t.
Proof.
  apply (unify_decimal_parameters
           [VDecimal (mkDecimal true "" Infinity);
            VDecimal (mkDecimal false "15" (Finite 9))]);
    [discriminate|reflexivity].
Defined.

Lemma max_digits_upper (f : string -> Z) (ds : list Decimal) (d : Decimal) :
  In d ds -> f (decimal_str d) <= max_digits f ds.
Proof.
  unfold max_digits. induction ds as [|d' ds IH]; simpl; [tauto|].
  intros [->|H]; [|specialize (IH H)]; lia.
Qed.

(** X8.  On a non-empty column of decimals all written digits, point,
    digits, the type [DECIMAL(t, s)] has room for every value: none has
    more than [t - s] digits before the point, and each has fewer than [s]
    digits after it. *)
Theorem unify_decimal_point_form_fits (ds : list Decimal) :
  ds <> [] ->
  Forall (fun d => point_form (decimal_str d) = true) ds ->
  exists t s,
    unify_datatype (map VDecimal ds)
    = Ok ("DECIMAL(" ++ str_of_int t ++ ", " ++ str_of_int s ++ ")") /\
    forall d, In d ds ->
      digits_left (decimal_str d) <= t - s /\
      digits_right (decimal_str d) < s.
Proof.
  intros Hne Hall.
  exists (max_digits digits_left ds + (max_digits digits_right ds + 1)),
         (max_digits digits_right ds + 1).
  split.
  - now rewrite (unify_decimal_point_form ds Hne Hall).
  - intros d Hd.
    pose proof (max_digits_upper digits_left ds d Hd).
    pose proof (max_digits_upper digits_right ds d Hd).
    lia.
Qed.

Lemma unify_decimal_point_form_fits_witness :
  exists t s,
    unify_datatype (map VDecimal [mkDecimal false "115573" (Finite (-5));
                                  mkDecimal false "2210" (Finite (-1))])
    = Ok ("DECIMAL(" ++ str_of_int t ++ ", " ++ str_of_int s ++ ")") /\
    forall d, In d [mkDecimal false "115573" (Finite (-5));
                    mkDecimal false "2210" (Finite (-1))] ->
      digits_left (decimal_str d) <= t - s /\
      digits_right (decimal_str d) < s.
Proof.
  apply (unify_decimal_point_form_fits
           [mkDecimal false "115573" (Finite (-5));
            mkDecimal false "2210" (Finite (-1))]);
    [discriminate|repeat constructor].
Defined.

(** ** The order of the records *)

Lemma forallb_Permutation {A : Type} (p : A -> bool) (l l' : list A) :
  Permutation l l' -> forallb p l = forallb p l'.
Proof.
  induction 1 as [|x l l' _ IH|x y l|l l' l'' _ IH1 _ IH2]; simpl.
  - reflexivity.
  - now rewrite IH.
  - now rewrite !andb_assoc, (andb_comm (p y)).
  - now rewrite IH1.
Qed.

Lemma max_abs_value_Permutation (l l' : list value) :
  Permutation l l' -> max_abs_value l = max_abs_value l'.
Proof.
  induction 1 as [|x l l' _ IH|x y l|l l' l'' _ IH1 _ IH2]; simpl; lia.
Qed.

Lemma decimals_Permutation (l l' : list value) :
  Permutation l l' -> Permutation (decimals l) (decimals l').
Proof.
  unfold decimals. induction 1 as [|x l l' _ IH|x y l|l l' l'' _ IH1 _ IH2];
    simpl.
  - constructor.
  - now apply Permutation_app_head.
  - rewrite !app_assoc. apply Permutation_app_tail, Permutation_app_comm.
  - now rewrite IH1.
Qed.

(** The scan keeps two running maxima, so it is a maximum over the
    column. *)
Lemma decimal_scan_max (ds : list Decimal) (r l : Z) :
  fold_left decimal_step ds (r, l)
  = (fold_right (fun d acc => Z.max (find "." (rev_string (decimal_str d))) acc)
                r ds,
     fold_right (fun d acc => Z.max (find "." (decimal_str d)) acc) l ds).
Proof.
  revert r l; induction ds as [|d ds IH]; intros r l; [reflexivity|].
  cbn [fold_left fold_right]. unfold decimal_step at 2. cbn [fst snd].
  rewrite IH. f_equal.
  - clear. induction ds as [|d' ds IH]; simpl; lia.
  - clear. induction ds as [|d' ds IH]; simpl; lia.
Qed.

Lemma fold_right_max_Permutation {A : Type} (f : A -> Z) (a : Z)
    (l l' : list A) :
  Permutation l l' ->
  fold_right (fun d acc => Z.max (f d) acc) a l
  = fold_right (fun d acc => Z.max (f d) acc) a l'.
Proof.
  induction 1 as [|x l l' _ IH|x y l|l l' l'' _ IH1 _ IH2]; simpl; lia.
Qed.

Lemma decimal_scan_Permutation (ds ds' : list Decimal) :
  Permutation ds ds' -> decimal_scan ds = decimal_scan ds'.
Proof.
  intros H. unfold decimal_scan. rewrite !decimal_scan_max.
  f_equal; now apply fold_right_max_Permutation.
Qed.

(** X9.  On a column without an empty string the type does not depend on
    the order of the records. *)
Theorem unify_datatype_order (vals vals' : list value) :
  Permutation vals vals' -> ~ In (VStr "") vals ->
  unify_datatype vals = unify_datatype vals'.
Proof.
  intros Hperm Hno.
  assert (Hno' : ~ In (VStr "") vals').
  { intros Hin. apply Hno. now apply (Permutation_in _ (Permutation_sym Hperm)). }
  rewrite !unify_datatype_rules, !all_currency_forallb by assumption.
  rewrite <- (forallb_Permutation is_float _ _ Hperm),
    <- (forallb_Permutation is_int _ _ Hperm),
    <- (forallb_Permutation is_Decimal _ _ Hperm),
    <- (forallb_Permutation is_currency _ _ Hperm),
    <- (forallb_Permutation is_Fraction _ _ Hperm),
    <- (max_abs_value_Permutation _ _ Hperm),
    <- (decimal_scan_Permutation _ _ (decimals_Permutation _ _ Hperm)).
  reflexivity.
Qed.

Lemma unify_datatype_order_witness :
  unify_datatype [VInt 70000; VInt (-3); VBool false]
  = unify_datatype [VBool false; VInt 70000; VInt (-3)].
Proof.
  apply (unify_datatype_order [VInt 70000; VInt (-3); VBool false]
                              [VBool false; VInt 70000; VInt (-3)]).
  - apply (Permutation_cons_app [VBool false] [VInt (-3)] (VInt 70000)).
    apply perm_swap.
  - simpl. intuition discriminate.
Defined.

(** * Further properties of the inferrer *)

(** ** The outcomes of the inferrer *)

Lemma validated_first_row (dataset : list pyobj) :
  validated dataset = true ->
  exists row0 rest,
    dataset = row0 :: rest /\
    ((exists cls items, row0 = NamedTuple cls items) \/
     (exists n t items, row0 = OddTuple n t items)).
Proof.
  unfold validated. intros H.
  apply andb_true_iff in H as [H _]. apply andb_true_iff in H as [Hlen Hnt].
  apply Nat.leb_le in Hlen.
  destruct dataset as [|row0 rest]; [simpl in Hlen; lia|].
  simpl in Hnt. apply andb_true_iff in Hnt as [H0 _].
  exists row0, rest. split; [reflexivity|].
  destruct row0 as [cls items|items|n fs|n t items]; try discriminate H0;
    eauto.
Qed.

(** A batch that passes the checks gets its statement, or leaves with the
    [IndexError] of a short record or of an empty string, or, when the
    [_fields] of its first record cannot be iterated, with the [TypeError]
    of [enumerate]. *)
Lemma validated_outcome (dataset : list pyobj) :
  validated dataset = true ->
  (exists out cls items rest,
     dataset = NamedTuple cls items :: rest /\
     infer_schema_nt dataset = Ok out) \/
  (exists msg, infer_schema_nt dataset = Raise (IndexError msg)) \/
  (exists n t items rest,
     dataset = OddTuple n t items :: rest /\
     infer_schema_nt dataset
     = Raise (TypeError ("'" ++ t ++ "' object is not iterable"))).
Proof.
  intros Hval. unfold infer_schema_nt.
  rewrite (infer_schema_validated _ _ Hval).
  pose proof (validated_tuples _ Hval) as Htup.
  destruct (validated_first_row _ Hval)
    as (row0 & rest & -> & [(cls & items & ->)|(n & t & items & ->)]).
  - cbn [first_row bind get_fields].
    destruct (unify_columns unify_datatype _ 0 (nt_fields cls) [])
      as [types|e] eqn:Eu; cbn [bind].
    + destruct (format_ddl (class_name (NamedTuple cls items)) types)
        as [out|e] eqn:Ef; [left; eauto 6|right; left].
      unfold format_ddl in Ef.
      destruct (update_last _ _) as [sql|e'] eqn:El; cbn [bind] in Ef;
        [discriminate|].
      inversion Ef; subst. apply update_last_raise in El as [msg ->]. eauto.
    + right; left. apply unify_columns_raise in Eu as [msg ->]; eauto.
  - right; right. cbn [first_row bind get_fields]. eauto 6.
Qed.

Lemma not_validated_value_error (dataset : list pyobj) :
  validated dataset = false ->
  exists m, infer_schema_nt dataset = Raise (ValueError m).
Proof.
  unfold validated, infer_schema_nt, infer_schema_with. intros H.
  destruct (Nat.ltb_spec (List.length dataset) 2) as [Hlt|Hge]; [eauto|].
  destruct (forallb (fun t => is_tuple t && has_fields t) dataset);
    cbn [negb]; [|eauto].
  destruct (List.length (nodup string_dec (map class_name dataset)) =? 1)%nat;
    cbn [negb]; [|eauto].
  apply Nat.leb_le in Hge. rewrite Hge in H. discriminate H.
Qed.

(** X10.  The inferrer raises a [ValueError] exactly when one of its three
    checks fails; a batch that passes them gets its statement, or leaves
    with an [IndexError], or, when the [_fields] of its first record
    cannot be iterated, with the [TypeError] of [enumerate]. *)
Theorem infer_schema_outcomes (dataset : list pyobj) :
  (validated dataset = false <->
   exists m, infer_schema_nt dataset = Raise (ValueError m)) /\
  (validated dataset = true ->
   (exists out, infer_schema_nt dataset = Ok out) \/
   (exists msg, infer_schema_nt dataset = Raise (IndexError msg)) \/
   (exists n t items rest,
      dataset = OddTuple n t items :: rest /\
      infer_schema_nt dataset
      = Raise (TypeError ("'" ++ t ++ "' object is not iterable")))).
Proof.
  split; [split|].
  - apply not_validated_value_error.
  - intros [m Hm]. destruct (validated dataset) eqn:Hval; [|reflexivity].
    destruct (validated_outcome _ Hval)
      as [(out & _ & _ & _ & _ & E)|[[msg E]|(n & t & items & rest & _ & E)]];
      rewrite E in Hm; discriminate Hm.
  - intros Hval.
    destruct (validated_outcome _ Hval)
      as [(out & _ & _ & _ & _ & E)|[H|H]]; eauto.
Qed.

Lemma infer_schema_outcomes_witness :
  infer_schema_nt [OddTuple "Pair" "int" [VInt 1; VInt 2];
                   OddTuple "Pair" "int" [VInt 3; VInt 4]]
  = Raise (TypeError "'int' object is not iterable").
Proof.
  destruct (proj2 (infer_schema_outcomes
                     [OddTuple "Pair" "int" [VInt 1; VInt 2];
                      OddTuple "Pair" "int" [VInt 3; VInt 4]]) eq_refl)
    as [[out E]|[[msg E]|(n & t & items & rest & Hd & E)]].
  - discriminate E.
  - discriminate E.
  - inversion Hd; subst. exact E.
Defined.

(** ** Records of different types *)

Lemma nodup_two_names (l : list string) (a b : string) :
  In a l -> In b l -> a <> b ->
  (List.length (nodup string_dec l) =? 1)%nat = false.
Proof.
  intros Ha Hb Hab.
  apply (nodup_In string_dec) in Ha, Hb.
  destruct (nodup string_dec l) as [|x [|y l']]; simpl in *;
    [tauto| |reflexivity].
  destruct Ha as [<-|[]], Hb as [<-|[]]. congruence.
Qed.

Lemma nodup_one_name (l : list string) :
  l <> [] ->
  (List.length (nodup string_dec l) =? 1)%nat = false ->
  exists a b, In a l /\ In b l /\ a <> b.
Proof.
  intros Hne Hlen.
  pose proof (NoDup_nodup string_dec l) as Hnd.
  assert (Hin : forall x, In x (nodup string_dec l) -> In x l)
    by (intros x; apply nodup_In).
  destruct (nodup string_dec l) as [|x [|y l']] eqn:E.
  - destruct l as [|z l]; [congruence|].
    assert (Hz : In z (nodup string_dec (z :: l)))
      by (apply nodup_In; now left).
    rewrite E in Hz. destruct Hz.
  - discriminate Hlen.
  - exists x, y. repeat split; [apply Hin; simpl; auto..|].
    inversion Hnd as [|? ? Hx _]; subst. intros ->. apply Hx. now left.
Qed.

(** X11.  A batch of at least two namedtuples fails with the error for
    varying types exactly when two of its records have classes of
    different names. *)
Theorem infer_schema_varying_types_iff (dataset : list pyobj) :
  (2 <= List.length dataset)%nat ->
  forallb (fun t => is_tuple t && has_fields t) dataset = true ->
  (infer_schema_nt dataset
   = Raise (ValueError "The dataset has namedtuples of varying types") <->
   exists r1 r2, In r1 dataset /\ In r2 dataset /\
                 class_name r1 <> class_name r2).
Proof.
  intros Hlen Hnt. split.
  - intros Herr.
    destruct (List.length (nodup string_dec (map class_name dataset)) =? 1)%nat
      eqn:Hone.
    + assert (Hval : validated dataset = true).
      { unfold validated. rewrite Hnt, Hone.
        apply Nat.leb_le in Hlen. now rewrite Hlen. }
      destruct (validated_outcome _ Hval)
        as [(out & _ & _ & _ & _ & E)
           |[[msg E]|(n & t & items & rest & _ & E)]];
        rewrite E in Herr; discriminate Herr.
    + destruct (nodup_one_name (map class_name dataset)) as (a & b & Ha & Hb & Hab).
      * destruct dataset; [simpl in Hlen; lia|discriminate].
      * exact Hone.
      * apply in_map_iff in Ha as (r1 & <- & H1).
        apply in_map_iff in Hb as (r2 & <- & H2). eauto.
  - intros (r1 & r2 & H1 & H2 & Hne).
    unfold infer_schema_nt, infer_schema_with.
    destruct (Nat.ltb_spec (List.length dataset) 2); [lia|].
    rewrite Hnt. cbn [negb].
    rewrite (nodup_two_names _ (class_name r1) (class_name r2));
      [reflexivity| | |exact Hne]; now apply in_map.
Qed.

Lemma infer_schema_varying_types_iff_witness :
  infer_schema_nt [NamedTuple Point [VInt 1; VInt 2];
                   NamedTuple Note [VInt 1; VStr "a"]]
  = Raise (ValueError "The dataset has namedtuples of varying types").
Proof.
  apply (infer_schema_varying_types_iff
           [NamedTuple Point [VInt 1; VInt 2];
            NamedTuple Note [VInt 1; VStr "a"]]).
  - simpl. lia.
  - reflexivity.
  - exists (NamedTuple Point [VInt 1; VInt 2]),
           (NamedTuple Note [VInt 1; VStr "a"]).
    simpl. repeat split; [tauto|tauto|discriminate].
Defined.

(** ** The dict of column types *)

Lemma dict_set_keys (types : dict) (col coldef k : string) :
  In k (keys (dict_set types col coldef)) <-> In k (keys types) \/ k = col.
Proof.
  induction types as [|[k' v] types IH]; simpl.
  - intuition auto.
  - destruct (String.eqb_spec k' col) as [->|Hne]; simpl.
    + intuition auto.
    + rewrite IH. intuition auto.
Qed.

Lemma dict_set_NoDup (types : dict) (col coldef : string) :
  NoDup (keys types) -> NoDup (keys (dict_set types col coldef)).
Proof.
  induction types as [|[k v] types IH]; simpl; intros Hnd.
  - constructor; [tauto|constructor].
  - inversion Hnd as [|? ? Hk Hrest]; subst.
    destruct (String.eqb_spec k col) as [->|Hne]; simpl.
    + now constructor.
    + constructor; [|now apply IH].
      fold (keys (dict_set types col coldef)). rewrite dict_set_keys.
      intros [H|H]; [now apply Hk|congruence].
Qed.

Lemma dict_set_Forall (P : string -> Prop) (types : dict)
    (col coldef : string) :
  Forall (fun ct => P (snd ct)) types -> P coldef ->
  Forall (fun ct => P (snd ct)) (dict_set types col coldef).
Proof.
  induction 1 as [|[k v] types Hkv Hall IH]; simpl; intros Hc.
  - now repeat constructor.
  - destruct (String.eqb k col); constructor; auto.
Qed.

(** The loop keeps one entry per field name, each with a label of the
    unifier. *)
Lemma unify_columns_entries (dataset : list pyobj) (fields : list string) :
  forall (n : nat) (types0 types : dict),
    unify_columns unify_datatype dataset n fields types0 = Ok types ->
    Forall (fun ct => type_label (snd ct)) types0 ->
    NoDup (keys types0) ->
    Forall (fun ct => type_label (snd ct)) types /\
    NoDup (keys types) /\
    (forall k, In k (keys types) <-> In k (keys types0) \/ In k fields).
Proof.
  induction fields as [|col fields IH]; intros n types0 types Hrun Hlab Hnd.
  - inversion Hrun; subst. split; [|split]; auto. intros k. simpl. tauto.
  - cbn [unify_columns] in Hrun.
    destruct (mapM (fun row => getitem row n) dataset) as [colvals|];
      [|discriminate]. cbn [bind] in Hrun.
    destruct (unify_datatype colvals) as [coldef|] eqn:EU; [|discriminate].
    cbn [bind] in Hrun. apply unify_datatype_label in EU.
    rewrite (type_label_not_falsy _ EU) in Hrun.
    destruct (IH _ _ _ Hrun) as (H1 & H2 & H3).
    + now apply dict_set_Forall.
    + now apply dict_set_NoDup.
    + split; [|split]; auto. intros k. rewrite H3, dict_set_keys. simpl.
      intuition auto.
Qed.

(** X12.  Every statement the inferrer returns is well formed: it is the
    create-table text for the class name of the first record, with one
    column line per distinct field name of that record, each carrying a
    label of the unifier. *)
Theorem infer_schema_success_shape (dataset : list pyobj) (out : string) :
  infer_schema_nt dataset = Ok out ->
  exists cls items rest types,
    dataset = NamedTuple cls items :: rest /\
    out = create_table_text (nt_name cls) types /\
    NoDup (keys types) /\
    (forall k, In k (keys types) <-> In k (nt_fields cls)) /\
    Forall (fun ct => type_label (snd ct)) types.
Proof.
  intros Hout.
  assert (Hval : validated dataset = true).
  { destruct (validated dataset) eqn:E; [reflexivity|].
    apply not_validated_value_error in E as [m Hm].
    rewrite Hm in Hout. discriminate Hout. }
  unfold infer_schema_nt in Hout.
  rewrite (infer_schema_validated _ _ Hval) in Hout.
  destruct (validated_first_row _ Hval)
    as (row0 & rest & -> & [(cls & items & ->)|(n & t & items & ->)]);
    [|discriminate Hout].
  cbn [first_row bind get_fields class_name] in Hout.
  destruct (unify_columns unify_datatype _ 0 (nt_fields cls) [])
    as [types|e] eqn:Eu; cbn [bind] in Hout; [|discriminate].
  destruct (unify_columns_entries _ _ _ _ _ Eu) as (Hlab & Hnd & Hkeys);
    [constructor|constructor|].
  exists cls, items, rest, types. repeat split; auto.
  - rewrite format_ddl_text in Hout; [now inversion Hout|].
    apply (Forall_impl _ (fun ct => type_label_comma_free_end (snd ct)) Hlab).
  - intros Hk. apply Hkeys in Hk as [[]|Hk]. exact Hk.
  - intros Hk. apply Hkeys. now right.
Qed.

Lemma infer_schema_success_shape_witness :
  exists cls items rest types,
    data1 = NamedTuple cls items :: rest /\
    "CREATE TABLE Numbers1 (" ++ nl ++
    "    a DOUBLE PRECISION," ++ nl ++
    "    b DECIMAL(26, 25)," ++ nl ++
    "    c BIGINT," ++ nl ++
    "    d SMALLINT," ++ nl ++
    "    e DOUBLE PRECISION" ++ nl ++
    ");" = create_table_text (nt_name cls) types /\
    NoDup (keys types) /\
    (forall k, In k (keys types) <-> In k (nt_fields cls)) /\
    Forall (fun ct => type_label (snd ct)) types.
Proof.
  apply (infer_schema_success_shape data1). vm_compute. reflexivity.
Defined.

(** ** A unifier that finds no type *)

Lemma unify_columns_falsy (U : list value -> result string)
    (dataset : list pyobj) (col : string) (post : list string) :
  forallb is_tuple dataset = true ->
  forall (pre : list string) (n : nat) (types : dict) (tys : list string),
    (forall i, (i <= List.length pre)%nat -> wide_enough dataset (n + i) = true) ->
    mapM U (map (column dataset) (seq n (List.length pre))) = Ok tys ->
    Forall (fun t => falsy t = false) tys ->
    U (column dataset (n + List.length pre)) = Ok "" ->
    unify_columns U dataset n (List.app pre (col :: post)) types
    = Raise (ValueError
               ("Could not find unified datatype for column " ++ col)).
Proof.
  intros Htup.
  induction pre as [|c pre IH]; intros n types tys Hwide HU Hfalsy Hempty.
  - cbn [List.app unify_columns]. rewrite (gather_column dataset n Htup).
    replace (wide_enough dataset n) with true
      by (symmetry; rewrite <- (Nat.add_0_r n); apply Hwide; simpl; lia).
    cbn [bind]. simpl in Hempty. rewrite Nat.add_0_r in Hempty.
    now rewrite Hempty.
  - cbn [List.app unify_columns]. rewrite (gather_column dataset n Htup).
    replace (wide_enough dataset n) with true
      by (symmetry; rewrite <- (Nat.add_0_r n); apply Hwide; simpl; lia).
    cbn [bind]. simpl in HU.
    destruct (U (column dataset n)) as [coldef|] eqn:EU; [|discriminate].
    cbn [bind] in *.
    destruct (mapM U (map (column dataset) (seq (S n) (List.length pre))))
      as [tys'|] eqn:Erest; [|discriminate].
    inversion HU; subst tys. inversion Hfalsy as [|? ? Hc Hrest]; subst.
    rewrite Hc. apply (IH (S n) _ tys').
    + intros i Hi. replace (S n + i)%nat with (n + S i)%nat by lia.
      apply Hwide. simpl; lia.
    + exact Erest.
    + exact Hrest.
    + simpl in Hempty.
      now replace (S n + List.length pre)%nat
        with (n + S (List.length pre))%nat by lia.
Qed.

(** X13.  With a unifier that returns an empty label, the inferrer stops
    at the first field whose column gets none and raises the [ValueError]
    that names this field. *)
Theorem infer_schema_names_first_failure (U : list value -> result string)
    (cls : ntclass) (dataset : list pyobj)
    (pre : list string) (col : string) (post : list string)
    (tys : list string) :
  valid_batch cls dataset ->
  nt_fields cls = List.app pre (col :: post) ->
  mapM U (columns dataset (List.length pre)) = Ok tys ->
  Forall (fun t => falsy t = false) tys ->
  U (column dataset (List.length pre)) = Ok "" ->
  infer_schema_with U dataset
  = Raise (ValueError ("Could not find unified datatype for column " ++ col)).
Proof.
  intros Hvalid Hfields Htys Hfalsy Hempty.
  pose proof (valid_batch_validated cls dataset Hvalid) as Hval.
  rewrite (infer_schema_validated _ _ Hval).
  assert (E : exists items rest, dataset = NamedTuple cls items :: rest).
  { destruct Hvalid as (Hlen & _ & Hall).
    destruct dataset as [|row0 rest]; [simpl in Hlen; lia|].
    apply Forall_inv in Hall as (items & -> & _). eauto. }
  destruct E as (items & rest & E). rewrite E at 1.
  cbn [first_row bind get_fields]. rewrite Hfields.
  rewrite (unify_columns_falsy U dataset col post
             (validated_tuples _ Hval) pre 0%nat [] tys); auto.
  intros i Hi. apply (valid_batch_wide cls); [exact Hvalid|].
  rewrite Hfields, length_app. simpl. lia.
Qed.

Lemma infer_schema_names_first_failure_witness :
  infer_schema_with
    (fun vals => if forallb is_int vals then Ok "INT" else Ok "")
    [NamedTuple Note [VInt 1; VStr "a"]; NamedTuple Note [VInt 2; VStr "b"]]
  = Raise (ValueError "Could not find unified datatype for column text").
Proof.
  apply (infer_schema_names_first_failure
           (fun vals => if forallb is_int vals then Ok "INT" else Ok "")
           Note
           [NamedTuple Note [VInt 1; VStr "a"];
            NamedTuple Note [VInt 2; VStr "b"]]
           ["id"] "text" [] ["INT"]).
  - split; [simpl; lia|]. split.
    + repeat constructor; simpl; intuition discriminate.
    + repeat constructor; eexists; split; reflexivity.
  - reflexivity.
  - reflexivity.
  - repeat constructor.
  - reflexivity.
Defined.

(** ** The test loop *)

(** X14.  One pass of the test loop ends without an exception on every
    batch that fails a check, printing the name, the message of the error
    and the separator; the exceptions that leave the loop are the
    [IndexError]s of the inferrer and the [TypeError] of a [_fields] that
    cannot be iterated. *)
Theorem loop_pass_escapes (name : string) (data : list pyobj) :
  (validated data = false ->
   exists m,
     infer_schema_nt data = Raise (ValueError m) /\
     loop_pass name data = (name ++ nl ++ m ++ nl ++ dashes ++ nl, None)) /\
  (forall e,
     snd (loop_pass name data) = Some e <->
     infer_schema_nt data = Raise e /\
     ((exists msg, e = IndexError msg) \/ (exists msg, e = TypeError msg))).
Proof.
  split.
  - intros Hval.
    apply not_validated_value_error in Hval as [m Hm].
    exists m. split; [exact Hm|]. unfold loop_pass. rewrite Hm.
    cbv zeta. now rewrite append_assoc.
  - intros e. unfold loop_pass.
    destruct (infer_schema_nt data) as [out|e'] eqn:E.
    + simpl. split; [discriminate|]. intros [H _]; discriminate H.
    + destruct (validated data) eqn:Hval.
      * destruct (validated_outcome _ Hval)
          as [(out & _ & _ & _ & _ & E')
             |[[msg E']|(n & t & items & rest & _ & E')]];
          rewrite E' in E; [discriminate| |];
          inversion E; subst e'; simpl; (split;
            [ intros H; inversion H; subst; eauto
            | intros [H _]; now inversion H ]).
      * apply not_validated_value_error in Hval as [m Hm].
        rewrite Hm in E. inversion E; subst e'. simpl. split; [discriminate|].
        intros [H [[msg ->]|[msg ->]]]; discriminate H.
Qed.

Lemma loop_pass_escapes_witness :
  loop_pass "data5" [NamedTuple Numbers1 []]
  = ("data5" ++ nl ++ "At least two rows are required for inference"
             ++ nl ++ dashes ++ nl, None).
Proof.
  destruct (proj1 (loop_pass_escapes "data5" [NamedTuple Numbers1 []])
              eq_refl) as (m & Hm & Hout).
  inversion Hm; subst. exact Hout.
Defined.

(** ** A class without fields *)

(** X15.  For a valid batch of a class without fields the loop adds no
    line, the strip of the last line meets the opening line and leaves it
    whole, and the statement is the opening and the closing line. *)
Theorem infer_schema_no_fields (cls : ntclass) (dataset : list pyobj) :
  valid_batch cls dataset -> nt_fields cls = [] ->
  infer_schema_nt dataset
  = Ok ("CREATE TABLE " ++ nt_name cls ++ " (" ++ nl ++ ");").
Proof.
  intros Hvalid Hfields.
  rewrite (infer_schema_valid_text cls dataset []); [|exact Hvalid|].
  - rewrite Hfields. unfold create_table_text. cbn [combine column_lines].
    cbn [List.app String.concat]. now rewrite !append_assoc.
  - now rewrite Hfields.
Qed.

Lemma infer_schema_no_fields_witness :
  infer_schema_nt [NamedTuple (mkClass 6 "Empty" []) [];
                   NamedTuple (mkClass 6 "Empty" []) []]
  = Ok ("CREATE TABLE Empty (" ++ nl ++ ");").
Proof.
  apply (infer_schema_no_fields (mkClass 6 "Empty" [])
           [NamedTuple (mkClass 6 "Empty" []) [];
            NamedTuple (mkClass 6 "Empty" []) []]).
  - split; [simpl; lia|]. split; [constructor|].
    repeat constructor; eexists; split; reflexivity.
  - reflexivity.
Defined.

(** ** Examples of the characterisations *)

Lemma unify_double_precision_iff_witness :
  unify_datatype [VFraction (22 # 7); VFraction (1 # 3)]
  = Ok "DOUBLE PRECISION".
Proof.
  apply (proj2 (unify_double_precision_iff
                  [VFraction (22 # 7); VFraction (1 # 3)])).
  right. reflexivity.
Defined.

Lemma unify_datatype_raises_iff_witness :
  unify_datatype [VStr "$5"; VStr ""; VInt 3]
  = Raise (IndexError "string index out of range").
Proof.
  apply (proj2 (unify_datatype_raises_iff
                  [VStr "$5"; VStr ""; VInt 3]
                  (IndexError "string index out of range"))).
  split; [reflexivity|].
  exists [VStr "$5"], [VInt 3]. split; reflexivity.
Defined.
